(** * Post-processing scripts for VASP output: a shallow embedding

    The repository is a set of independent Python scripts.  This file embeds
    the parts that carry logic of their own:

    - [Dirac.read_klabels] and the band selection and windowing of
      [Dirac.analyze_dirac_cone] (BAND/Dirac.py, repeated in BAND/Function.py);
    - [Encut.extract_energy_from_outcar] and [Encut.analyze_encut_convergence]
      (Optimization_ENCUT/ENCUT_TEST.py);
    - the convergence scan of [Kpoints.plot_kpoints_convergence]
      (Optimization_KPOINTS/KPOINTS_TEST.py);
    - [Dos.extract_fermi_energy], the column selection of the projected
      density of states and the lines of the tables (DOS/DOS.py);
    - the helpers of the k-point sweep, [KpointsFiles.extract_energy_from_outcar]
      and [KpointsFiles.get_kpoints_from_folder];
    - [WorkFunction.calculate_work_function] (BAND/Function.py);
    - [BandOrbits.read_klabels] and the selection of
      [analyze_dirac_cone_contributions] (BAND/BAND_Orbits.py), and the
      reading of the labels in BAND/BAND.py;
    - [OrbitBand.parse_band_data] (BAND/Orbit_Band.py).

    Python values are modelled as follows.  A [float] is a binary64 number:
    Rocq's primitive [float], with its NaN and infinities.  A [str] is a list
    of characters, a character being a code point below 256.  An exception is
    a value of [exn], and printing appends a message to a log: a computation
    of type [py M A] is the list of messages printed so far together with
    either a result or the exception that ended it.  Calls into matplotlib
    only draw, and are left out.

    The modules of the first part hold the embedding, one module for each
    script after those for Python and numpy.  The second part proves
    properties of the embedding, the section after it states the claims of
    the specification about it, and the last part proves further properties
    of the scripts. *)

From Stdlib Require Import ZArith Floats Ascii String List Lia.
From stdpp Require Import gmap list sorting.

Set Warnings "-inexact-float".
Local Open Scope Z_scope.

(** ** Exceptions and printing *)

Module Py.

Inductive exn : Type :=
| ValueError
| IndexError
| TypeError.

Inductive res (A : Type) : Type :=
| Ok (a : A)
| Raise (e : exn).
Arguments Ok {A} a.
Arguments Raise {A} e.

(** A computation that prints messages of type [M]. *)
Definition py (M A : Type) : Type := list M * res A.

Definition ret {M A} (a : A) : py M A := ([], Ok a).
Definition raise {M A} (e : exn) : py M A := ([], Raise e).
Definition print {M} (m : M) : py M unit := ([m], Ok tt).

Definition bind {M A B} (c : py M A) (k : A -> py M B) : py M B :=
  match c with
  | (out, Ok a) => let (out', r) := k a in (out ++ out', r)
  | (out, Raise e) => (out, Raise e)
  end.

(** [try: c except: h]. *)
Definition try_except {M A} (c : py M A) (h : exn -> py M A) : py M A :=
  match c with
  | (out, Raise e) => let (out', r) := h e in (out ++ out', r)
  | _ => c
  end.

(** An operation that prints nothing. *)
Definition lift {M A} (r : res A) : py M A := ([], r).

Definition printed {M A} (c : py M A) : list M := fst c.
Definition outcome {M A} (c : py M A) : res A := snd c.

Definition returns {M A} (c : py M A) : Prop := exists a, outcome c = Ok a.

End Py.

Import Py.

(** stdpp's notations [x ← c; k] and [c;; k] sequence such computations. *)
#[global] Instance py_ret {M} : MRet (py M) := fun A a => ret a.
#[global] Instance py_bind {M} : MBind (py M) := fun A B k c => bind c k.
#[global] Instance res_ret : MRet res := fun A a => Ok a.
#[global] Instance res_bind : MBind res :=
  fun A B k r => match r with Ok a => k a | Raise e => Raise e end.

(** ** Strings *)

Module PyStr.

Definition str : Type := list ascii.

(** A string literal. *)
Definition s (x : string) : str := list_ascii_of_string x.

Definition code (c : ascii) : N := N_of_ascii c.

Definition in_range (lo hi : N) (c : ascii) : bool :=
  ((lo <=? code c) && (code c <=? hi))%N.

(** [str.isspace] on one character: TAB to CR, FS to US and the blank, NEL and
    the no-break space. *)
Definition isspace (c : ascii) : bool :=
  in_range 9 13 c || in_range 28 32 c || (code c =? 133)%N || (code c =? 160)%N.

Definition isdigit (c : ascii) : bool := in_range 48 57 c.

Definition backslash : ascii := ascii_of_N 92.

Fixpoint lstrip (x : str) : str :=
  match x with
  | c :: x' => if isspace c then lstrip x' else x
  | [] => []
  end.

Definition rstrip (x : str) : str := rev (lstrip (rev x)).

(** [x.strip()] *)
Definition strip (x : str) : str := rstrip (lstrip x).

(** [x.split()]: the maximal runs of characters that are not white space.
    [cur] is the run being read, last character first. *)
Fixpoint split_go (cur : str) (x : str) : list str :=
  match x with
  | [] => match cur with [] => [] | _ => [rev cur] end
  | c :: x' =>
      if isspace c
      then match cur with [] => split_go [] x' | _ => rev cur :: split_go [] x' end
      else split_go (c :: cur) x'
  end.

Definition split (x : str) : list str := split_go [] x.

Fixpoint startswith (p x : str) : bool :=
  match p, x with
  | [], _ => true
  | a :: p', b :: x' => Ascii.eqb a b && startswith p' x'
  | _ :: _, [] => false
  end.

(** [p in x] *)
Fixpoint contains (p x : str) : bool :=
  startswith p x || match x with [] => false | _ :: x' => contains p x' end.

(** [x.replace(old, new)] for a pattern [old] of one character. *)
Fixpoint replace (old : ascii) (new : str) (x : str) : str :=
  match x with
  | [] => []
  | c :: x' => if Ascii.eqb c old then new ++ replace old new x' else c :: replace old new x'
  end.

(** [x.lower()]: the capital letters of ASCII and of Latin-1. *)
Definition lower_char (c : ascii) : ascii :=
  if in_range 65 90 c || (in_range 192 222 c && negb (code c =? 215)%N)
  then ascii_of_N (code c + 32) else c.

Definition lower (x : str) : str := map lower_char x.

Definition str_eqb (x y : str) : bool := bool_decide (x = y).

(** [f.readlines()] on the text of a file: every line keeps its newline; the
    text is what Python decodes, with every line ending already a newline. *)
Fixpoint readlines_go (cur : str) (x : str) : list str :=
  match x with
  | [] => match cur with [] => [] | _ => [rev cur] end
  | c :: x' =>
      if (code c =? 10)%N then rev (c :: cur) :: readlines_go [] x'
      else readlines_go (c :: cur) x'
  end.

Definition readlines (x : str) : list str := readlines_go [] x.

(** A line boundary of [str.splitlines]. *)
Definition islinebreak (c : ascii) : bool :=
  in_range 10 13 c || in_range 28 30 c || (code c =? 133)%N.

(** [x.splitlines()]: boundaries are dropped, CR LF is one boundary, and no
    empty line follows a final boundary. *)
Fixpoint splitlines_go (cur : str) (x : str) : list str :=
  match x with
  | [] => match cur with [] => [] | _ => [rev cur] end
  | c :: x' =>
      if islinebreak c then
        rev cur ::
          match x' with
          | d :: x'' =>
              if ((code c =? 13) && (code d =? 10))%N then splitlines_go [] x''
              else splitlines_go [] x'
          | [] => []
          end
      else splitlines_go (c :: cur) x'
  end.

Definition splitlines (x : str) : list str := splitlines_go [] x.

End PyStr.

Import PyStr.

(** ** Sequences *)

Module PySeq.

(** [l[i]] for a Python index, negative ones counting from the end. *)
Definition index {A} (l : list A) (i : Z) : res A :=
  let n := Z.of_nat (length l) in
  let j := if i <? 0 then n + i else i in
  if (0 <=? j) && (j <? n)
  then match l !! Z.to_nat j with Some a => Ok a | None => Raise IndexError end
  else Raise IndexError.

(** [l[lo:hi]] for Python indices: a negative bound counts from the end, and
    both are clipped to the list. *)
Definition clip_bound (n i : Z) : Z :=
  let j := if i <? 0 then n + i else i in Z.max 0 (Z.min n j).

Definition slice {A} (l : list A) (lo hi : Z) : list A :=
  let n := Z.of_nat (length l) in
  let a := clip_bound n lo in
  let b := clip_bound n hi in
  take (Z.to_nat (b - a)) (drop (Z.to_nat a) l).

End PySeq.

Import PySeq.

(** ** Floating-point numbers *)

Module PyFloat.

Local Open Scope float_scope.

Definition isnan (x : float) : bool := negb (x =? x).

(** [math.isfinite(x)]: neither a NaN nor an infinity. *)
Definition is_finite (x : float) : bool :=
  match Prim2SF x with S754_zero _ | S754_finite _ _ _ => true | _ => false end.

(** The order of numpy's sorts on floats, [a < b || (b != b && a == a)]:
    NaN comes after every number. *)
Definition np_lt (a b : float) : bool := (a <? b) || (negb (b =? b) && (a =? a)).

(** The value [(-1)^neg * m * 10^e] rounded to the nearest binary64 number,
    ties to even, as [float] does for a decimal numeral.  A negative power of
    ten divides: the quotient is taken with 64 bits or more, and a nonzero
    remainder is kept as one more bit below it. *)
Definition of_decimal (neg : bool) (m : Z) (e : Z) : float :=
  if (m =? 0)%Z then (if neg then -0 else 0)
  else if (0 <=? e)%Z
  then SF2Prim (binary_normalize prec emax (cond_Zopp neg (m * 10 ^ e)) 0 neg)
  else
    let d := (10 ^ (- e))%Z in
    let k := Z.max 0 (64 + Z.log2 d - Z.log2 m)%Z in
    let n := (m * 2 ^ k)%Z in
    let q := (n / d)%Z in
    let sticky := if (n mod d =? 0)%Z then 0%Z else 1%Z in
    SF2Prim (binary_normalize prec emax (cond_Zopp neg (2 * q + sticky)) (- k - 1) neg).

Definition digit_value (c : ascii) : Z := Z.of_N (code c) - 48.

Definition digits_value (ds : str) : Z :=
  fold_left (fun acc c => (10 * acc + digit_value c)%Z) ds 0%Z.

(** The longest prefix of digits, and what follows it. *)
Fixpoint span_digits (x : str) : str * str :=
  match x with
  | c :: x' =>
      if isdigit c then let (ds, rest) := span_digits x' in (c :: ds, rest)
      else ([], x)
  | [] => ([], [])
  end.

(** An underscore of a numeral stands between two digits; they are dropped.
    [prev] is the character before [x]. *)
Fixpoint drop_underscores (prev : option ascii) (x : str) : option str :=
  let after_digit := match prev with Some p => isdigit p | None => false end in
  let after_underscore :=
    match prev with Some p => Ascii.eqb p "_" | None => false end in
  match x with
  | [] => if after_underscore then None else Some []
  | c :: x' =>
      if Ascii.eqb c "_" then
        if after_digit then drop_underscores (Some c) x' else None
      else if after_underscore && negb (isdigit c) then None
      else option_map (cons c) (drop_underscores (Some c) x')
  end.

(** An optional sign: whether it is a minus, and what follows it. *)
Definition take_sign (x : str) : bool * str :=
  match x with
  | c :: x' =>
      if Ascii.eqb c "-" then (true, x')
      else if Ascii.eqb c "+" then (false, x')
      else (false, x)
  | [] => (false, [])
  end.

(** The exponent part, which ends the numeral: nothing, or [e] or [E], an
    optional sign and one digit or more. *)
Definition exponent_part (x : str) : option Z :=
  match x with
  | [] => Some 0%Z
  | c :: x' =>
      if Ascii.eqb c "e" || Ascii.eqb c "E" then
        let (neg, x'') := take_sign x' in
        match span_digits x'' with
        | ((_ :: _) as ds, []) => Some (cond_Zopp neg (digits_value ds))
        | _ => None
        end
      else None
  end.

(** A decimal numeral without its sign, as a mantissa and a power of ten:
    digits, an optional point and digits, with one digit at least, and an
    optional exponent. *)
Definition decimal_numeral (x : str) : option (Z * Z) :=
  let (ip, r1) := span_digits x in
  let (fp, r2) :=
    match r1 with
    | c :: r => if Ascii.eqb c "." then span_digits r else ([], r1)
    | [] => ([], r1)
    end in
  match ip, fp with
  | [], [] => None
  | _, _ =>
      match exponent_part r2 with
      | Some e => Some (digits_value (ip ++ fp), (e - Z.of_nat (length fp))%Z)
      | None => None
      end
  end.

(** [inf], [infinity] and [nan], in any case. *)
Definition special_numeral (neg : bool) (x : str) : option float :=
  let l := lower x in
  if str_eqb l (s "inf") || str_eqb l (s "infinity")
  then Some (if neg then neg_infinity else infinity)
  else if str_eqb l (s "nan") then Some nan
  else None.

Definition parse_float (x : str) : option float :=
  match drop_underscores None (strip x) with
  | None => None
  | Some y =>
      let (neg, body) := take_sign y in
      match special_numeral neg body with
      | Some v => Some v
      | None =>
          match decimal_numeral body with
          | Some (m, e) => Some (of_decimal neg m e)
          | None => None
          end
      end
  end.

(** [float(x)] for a string [x]: the number, or [ValueError]. *)
Definition float_of_str (x : str) : res float :=
  match parse_float x with
  | Some v => Ok v
  | None => Raise ValueError
  end.

End PyFloat.

Import PyFloat.

(** ** Regular expressions

    The fragment of [re] that the scripts use, matched the way [re] does:
    at the leftmost position, alternatives in order, repetitions greedy, with
    backtracking. *)

Module PyRe.

Inductive regex : Type :=
| Cls (p : ascii -> bool)      (* one character of a class *)
| Opt (r : regex)              (* r? *)
| Star (p : ascii -> bool)     (* c* for a class c *)
| Plus (p : ascii -> bool)     (* c+ for a class c *)
| Seq (r1 r2 : regex)          (* r1 r2 *)
| Alt (r1 r2 : regex).         (* r1|r2 *)

(** [c*] then the continuation [k]: the longest run first. *)
Fixpoint star {A} (p : ascii -> bool) (x : str) (k : str -> option A) : option A :=
  match x with
  | c :: x' =>
      if p c then match star p x' k with Some a => Some a | None => k x end
      else k x
  | [] => k []
  end.

(** Match [r] at the start of [x], then [k] on what is left. *)
Fixpoint run {A} (r : regex) (x : str) (k : str -> option A) : option A :=
  match r with
  | Cls p => match x with c :: x' => if p c then k x' else None | [] => None end
  | Opt r1 => match run r1 x k with Some a => Some a | None => k x end
  | Star p => star p x k
  | Plus p => match x with c :: x' => if p c then star p x' k else None | [] => None end
  | Seq r1 r2 => run r1 x (fun x' => run r2 x' k)
  | Alt r1 r2 => match run r1 x k with Some a => Some a | None => run r2 x k end
  end.

(** The text [r] matches at the start of [x]. *)
Definition match_at (r : regex) (x : str) : option str :=
  match run r x Some with
  | Some rest => Some (take (length x - length rest) x)
  | None => None
  end.

(** [re.findall(r, x)] for [r] without groups: the matches from left to
    right, none overlapping another.  [skip] characters are still covered by
    the last match. *)
Fixpoint findall_go (r : regex) (skip : nat) (x : str) : list str :=
  match skip with
  | S n => match x with [] => [] | _ :: x' => findall_go r n x' end
  | O =>
      match match_at r x with
      | Some m =>
          m :: match x with [] => [] | _ :: x' => findall_go r (length m - 1) x' end
      | None => match x with [] => [] | _ :: x' => findall_go r 0 x' end
      end
  end.

Definition findall (r : regex) (x : str) : list str := findall_go r 0 x.

Definition one_of (cs : str) (c : ascii) : bool := existsb (Ascii.eqb c) cs.

End PyRe.

Import PyRe.


(** ** numpy arrays *)

Module Np.

Local Open Scope float_scope.

(** A two-dimensional array of floats, as [np.loadtxt] returns it: its rows
    and the number of columns, [shape[1]]. *)
Record ndarray2 : Type := { ncols : nat; rows : list (list float) }.

(** Every row has [ncols] entries. *)
Definition well_shaped (t : ndarray2) : Prop :=
  Forall (fun r => length r = ncols t) (rows t).

(** [t[:, j]] for [j >= 0] *)
Definition column (t : ndarray2) (j : nat) : res (list float) :=
  if decide (j < ncols t)%nat then
    match mapM (fun r => r !! j) (rows t) with
    | Some c => Ok c
    | None => Raise IndexError
    end
  else Raise IndexError.

(** [t[:, 1:]] *)
Definition columns_from_1 (t : ndarray2) : ndarray2 :=
  {| ncols := ncols t - 1; rows := map (drop 1) (rows t) |}.


(** [np.diff(a)] *)
Fixpoint diff (a : list float) : list float :=
  match a with
  | x :: ((y :: _) as a') => (y - x) :: diff a'
  | _ => []
  end.

(** [np.argmin(a)]: the first index of the least entry, or of the first NaN
    if there is one.  [mp] is the least entry so far, at [best], and [i] the
    index of the head of the list. *)
Fixpoint argmin_go (mp : float) (best i : nat) (a : list float) : nat :=
  match a with
  | [] => best
  | x :: a' =>
      if negb (mp <=? x) then
        if isnan x then i else argmin_go x i (S i) a'
      else argmin_go mp best (S i) a'
  end.

Definition argmin (a : list float) : res nat :=
  match a with
  | [] => Raise ValueError
  | x :: a' => Ok (if isnan x then 0%nat else argmin_go x 0 1 a')
  end.

(** [np.argsort(a)]: the indices of [a] in the order of [np_lt] on the
    entries.  numpy leaves the order of equal entries open; here they keep
    their order, as numpy's insertion sort of a short array does. *)
Fixpoint insert_index (key : nat -> float) (i : nat) (sorted : list nat) : list nat :=
  match sorted with
  | [] => [i]
  | j :: rest =>
      if np_lt (key i) (key j) then i :: j :: rest
      else j :: insert_index key i rest
  end.

Definition argsort (a : list float) : list nat :=
  let key i := nth i a nan in
  fold_left (fun sorted i => insert_index key i sorted) (seq 0 (length a)) [].

End Np.

Import Np.

(** ** DOS/DOS.py *)

Module Dos.

Local Open Scope float_scope.

Inductive msg : Type :=
| FermiFileMissing                    (* the file does not exist *)
| FermiUnreadable (content : str)     (* no value could be extracted *)
| PdosTooFewColumns                   (* the table has fewer than 5 columns *)
| PdosUnparsable.                     (* an index was out of range *)

(** [[-+]?\d*\.\d+|\d+] *)
Definition numeric : regex :=
  Alt (Seq (Opt (Cls (one_of (s "-+"))))
        (Seq (Star isdigit) (Seq (Cls (one_of (s "."))) (Plus isdigit))))
      (Plus isdigit).

(** [try: return c] followed by [except ValueError: pass] and the rest of the
    function. *)
Definition try_return {A} (c : res A) (rest : py msg A) : py msg A :=
  try_except (lift c)
    (fun e => match e with ValueError => rest | _ => raise e end).

(** [extract_fermi_energy(filename)]; [file] is the text of the file, if it
    exists. *)
Definition extract_fermi_energy (file : option str) : py msg float :=
  match file with
  | None => print FermiFileMissing;; mret 0
  | Some text =>
      let content := strip text in
      try_return (float_of_str content)
        (let matches := findall numeric content in
         let from_lines :=
           let lines := splitlines content in
           let default := print (FermiUnreadable content);; mret 0 in
           match lines with
           | [] => default
           | _ :: _ => try_return (v ← index lines (-1); float_of_str v) default
           end in
         match matches with
         | [] => from_lines
         | _ :: _ => try_return (v ← index matches 0; float_of_str v) from_lines
         end)
  end.





End Dos.

(** ** BAND/Dirac.py *)

Module Dirac.

Local Open Scope float_scope.

Inductive msg : Type :=
| KlabelsMissing                      (* the label file does not exist *)
| KlabelsError                        (* reading the label file failed *)
| NoSymPoints                         (* no label was read: the midpoint is used *)
| NoKLabel                            (* no label is a K point: the middle label is used *)
| DiracBands (bands : list nat).      (* the indices of the two bands *)

(** The points and labels read so far, [sym_points] and [labels]. *)
Definition klabels : Type := list float * list str.

(** One turn of the loop over the data lines of [read_klabels]. *)
Definition klabels_line (st : klabels) (line : str) : res klabels :=
  match strip line with
  | [] => Ok st
  | _ :: _ =>
      let parts := split line in
      if decide (2 <= length parts)%nat then
        let attempt :=
          p ← index parts 0;
          let label := replace backslash [] p in
          q ← index parts (-1);
          coord ← float_of_str q;
          mret (st.1 ++ [coord], st.2 ++ [label]) in
        match attempt with
        | Raise ValueError => Ok st
        | r => r
        end
      else Ok st
  end.

(** The loop, inside [try: ... except Exception: print(...)]: an exception
    ends it, and what was read so far is returned. *)
Fixpoint klabels_lines (st : klabels) (lines : list str) : py msg klabels :=
  match lines with
  | [] => mret st
  | line :: lines' =>
      match klabels_line st line with
      | Ok st' => klabels_lines st' lines'
      | Raise _ => print KlabelsError;; mret st
      end
  end.

Definition is_header (line : str) : bool :=
  contains (s "K-Label") line || contains (s "Coordinate") line.

Definition blank (line : str) : bool :=
  match strip line with [] => true | _ :: _ => false end.

(** The index of the first data line. *)
Definition start_index (lines : list str) : nat :=
  let i := match lines with l0 :: _ => if is_header l0 then 1 else 0 | [] => 0 end%nat in
  match lines !! i with
  | Some l => if blank l then S i else i
  | None => i
  end.

(** [read_klabels(filename)]; [file] is the text of the file, if it exists. *)
Definition read_klabels (file : option str) : py msg klabels :=
  match file with
  | None => print KlabelsMissing;; mret ([], [])
  | Some text =>
      let lines := readlines text in
      klabels_lines ([], []) (drop (start_index lines) lines)
  end.

(** The labels taken for a K point. *)
Definition k_names : list str :=
  [s "k"; s "k$"; s "k" ++ [backslash]; s "k1"; s "k2"].

(** The index of the first label that names a K point. *)
Fixpoint find_k (i : nat) (labels : list str) : option nat :=
  match labels with
  | [] => None
  | label :: labels' =>
      if bool_decide (lower label ∈ k_names) then Some i else find_k (S i) labels'
  end.

(** The position on the path around which the bands are studied. *)
Definition k_position (k_points : list float) (kl : klabels) : py msg float :=
  let '(sym_points, labels) := kl in
  match sym_points with
  | [] =>
      print NoSymPoints;;
      a ← lift (index k_points 0);
      b ← lift (index k_points (-1));
      mret ((a + b) / 2)
  | _ :: _ =>
      k_index ← match find_k 0 labels with
                | Some i => mret i
                | None => print NoKLabel;; mret (length sym_points / 2)%nat
                end;
      lift (index sym_points (Z.of_nat k_index))
  end.

Definition window : Z := 50.

(** The bounds of the rows kept around the row [k_index_band] of [n]. *)
Definition start_idx (k_index_band : Z) : Z := Z.max 0 (k_index_band - window).
Definition end_idx (n k_index_band : Z) : Z := Z.min n (k_index_band + window).

Definition fermi_energy : float := 0.

(** The two bands next to the Fermi level in the row [band_energies_at_k]. *)
Definition dirac_bands (band_energies_at_k : list float) : list nat :=
  let sorted_bands :=
    argsort (map (fun e => abs (e - fermi_energy)) band_energies_at_k) in
  slice sorted_bands 0 2.

(** What [analyze_dirac_cone] computes before it plots. *)
Record cone : Type :=
  { position : float;            (* k_position *)
    nearest : nat;               (* k_index_band *)
    k_window : list float;
    e_window : list (list float);
    bands : list nat }.          (* dirac_bands *)

(** [analyze_dirac_cone()], up to the plot; [band_data] is the table of
    [REFORMATTED_BAND.dat] and [klabels_file] the text of [KLABELS]. *)
Definition analyze_dirac_cone (band_data : ndarray2) (klabels_file : option str)
  : py msg cone :=
  k_points ← lift (column band_data 0);
  let energies := columns_from_1 band_data in
  kl ← read_klabels klabels_file;
  k_pos ← k_position k_points kl;
  k_index_band ← lift (argmin (map (fun k => abs (k - k_pos)) k_points));
  let n := Z.of_nat (length k_points) in
  let lo := start_idx (Z.of_nat k_index_band) in
  let hi := end_idx n (Z.of_nat k_index_band) in
  band_energies_at_k ← lift (index (rows energies) (Z.of_nat k_index_band));
  let selected := dirac_bands band_energies_at_k in
  print (DiracBands selected);;
  mret {| position := k_pos; nearest := k_index_band;
          k_window := slice k_points lo hi;
          e_window := slice (rows energies) lo hi;
          bands := selected |}.

End Dirac.

(** ** Optimization_ENCUT/ENCUT_TEST.py *)

Module Encut.

Local Open Scope float_scope.

Inductive msg : Type :=
| Energy (encut : Z) (energy : float)   (* ENCUT = ... eV, Energy = ... eV *)
| OutcarNotFound (encut : Z)
| Converged (encut : Z)                 (* ENCUT converged at ... eV *)
| NotConverged.                         (* ENCUT did not converge within tested range *)

Definition toten : str := s "free  energy   TOTEN".

(** [extract_energy_from_outcar(outcar_path)] on the lines of the file: the
    fifth word of the first line with the marker, or [None]. *)
Fixpoint extract_energy_from_lines (lines : list str) : res (option float) :=
  match lines with
  | [] => Ok None
  | line :: lines' =>
      if contains toten line then
        let parts := split line in
        w ← index parts 4;
        energy ← float_of_str w;
        mret (Some energy)
      else extract_energy_from_lines lines'
  end.

Definition extract_energy_from_outcar (outcar : str) : res (option float) :=
  extract_energy_from_lines (readlines outcar).

Definition encut_values : list Z :=
  [200; 250; 300; 350; 400; 450; 500; 550]%Z.

(** [f"{energy:.6f}"] is defined for a float only. *)
Definition format_energy (energy : option float) : res float :=
  match energy with
  | Some e => Ok e
  | None => Raise TypeError
  end.

(** The loop that reads one energy for each value; [outcar encut] is the
    text of [Encut_<encut>/OUTCAR], if the file exists. *)
Fixpoint read_energies (outcar : Z -> option str) (values : list Z)
    (energies : list float) : py msg (list float) :=
  match values with
  | [] => mret energies
  | encut :: values' =>
      match outcar encut with
      | Some text =>
          energy ← lift (extract_energy_from_outcar text);
          e ← lift (format_energy energy);
          print (Energy encut e);;
          read_energies outcar values' (energies ++ [e])
      | None =>
          print (OutcarNotFound encut);;
          read_energies outcar values' (energies ++ [nan])
      end
  end.

(** The index after the first difference below 1 meV; [i] is the index of
    the head of [energy_diffs]. *)
Fixpoint convergence_index (i : nat) (energy_diffs : list float) : option nat :=
  match energy_diffs with
  | [] => None
  | d :: ds => if d <? 0.001 then Some (S i) else convergence_index (S i) ds
  end.

(** The part of [analyze_encut_convergence] that marks the convergence. *)
Definition mark_convergence (values : list Z) (energies : list float) : py msg unit :=
  if decide (1 < length energies)%nat then
    let energy_diffs := map abs (diff energies) in
    match convergence_index 0 energy_diffs with
    | Some i =>
        v ← lift (index values (Z.of_nat i));
        print (Converged v)
    | None => print NotConverged
    end
  else mret tt.

(** [analyze_encut_convergence()], for any list of values in the place of
    [encut_values]. *)
Definition analyze_convergence (values : list Z) (outcar : Z -> option str)
  : py msg (list Z * list float) :=
  energies ← read_energies outcar values [];
  mark_convergence values energies;;
  mret (values, energies).

Definition analyze_encut_convergence (outcar : Z -> option str)
  : py msg (list Z * list float) :=
  analyze_convergence encut_values outcar.

End Encut.

(** ** Optimization_KPOINTS/KPOINTS_TEST.py *)

Module Kpoints.

Local Open Scope float_scope.

Inductive msg : Type :=
| Energy (kpoints : Z) (energy : float)      (* KPOINTS=...: energy *)
| NoValidOutcar
| Difference (kpoints : Z) (d : float)       (* the difference to the reference *)
| ConvergedAt (kpoints : Z)
| NoConvergence.

Definition threshold : float := 0.001.

(** The loop over the folders.  For each folder that has an OUTCAR, [found]
    holds what [get_kpoints_from_folder] and [extract_energy_from_outcar]
    returned, [None] being Python's. *)
Fixpoint collect (found : list (option Z * option float)) (results : gmap Z float)
  : py msg (gmap Z float) :=
  match found with
  | [] => mret results
  | (Some kpoints, Some energy) :: found' =>
      print (Energy kpoints energy);;
      collect found' (<[kpoints := energy]> results)
  | _ :: found' => collect found' results
  end.

(** [sorted(results.keys())] *)
Definition sorted_keys (results : gmap Z float) : list Z :=
  merge_sort Z.le (map_to_list results).*1.

(** The loop that prints the difference of every entry. *)
Fixpoint report (i : nat) (ks : list Z) (energy_differences : list float) : py msg unit :=
  match ks with
  | [] => mret tt
  | k :: ks' =>
      d ← lift (index energy_differences (Z.of_nat i));
      print (Difference k d);;
      report (S i) ks' energy_differences
  end.

(** The loop that looks for the convergence point: [converged_kpoints]. *)
Fixpoint scan (i : nat) (ks : list Z) (energy_differences : list float)
  : py msg (option Z) :=
  match ks with
  | [] => mret None
  | k :: ks' =>
      d ← lift (index energy_differences (Z.of_nat i));
      if d <? threshold then print (ConvergedAt k);; mret (Some k)
      else scan (S i) ks' energy_differences
  end.

(** The analysis of the collected results, which are not empty. *)
Definition analyze (results : gmap Z float) : py msg unit :=
  let sorted_kpoints := sorted_keys results in
  sorted_energies ←
    lift (mapM (M := res) (fun k => match results !! k with
                          | Some e => Ok e
                          | None => Raise IndexError   (* KeyError *)
                          end) sorted_kpoints);
  ref_energy ← lift (index sorted_energies (-1));
  let energy_differences := map (fun e => abs (e - ref_energy)) sorted_energies in
  report 0 sorted_kpoints energy_differences;;
  converged_kpoints ← scan 0 sorted_kpoints energy_differences;
  match converged_kpoints with
  | None => print NoConvergence
  | Some _ => mret tt
  end.

(** [plot_kpoints_convergence()] *)
Definition plot_kpoints_convergence (found : list (option Z * option float))
  : py msg unit :=
  results ← collect found ∅;
  if decide (results = ∅) then print NoValidOutcar
  else analyze results.

End Kpoints.

(** ** More of Python's strings, and its integers *)

Module PyText.

(** [x.split(sep)] for a separator [sep] of one character: the text between
    the separators, so one part more than there are separators. *)
Fixpoint split_on_go (sep : ascii) (cur : str) (x : str) : list str :=
  match x with
  | [] => [rev cur]
  | c :: x' =>
      if Ascii.eqb c sep then rev cur :: split_on_go sep [] x'
      else split_on_go sep (c :: cur) x'
  end.

Definition split_on (sep : ascii) (x : str) : list str := split_on_go sep [] x.

(** [c.isdigit()]: a decimal digit, or one of the superscripts of Latin-1. *)
Definition isdigit_char (c : ascii) : bool :=
  isdigit c || (code c =? 178)%N || (code c =? 179)%N || (code c =? 185)%N.

(** [c.isalpha()]: the letters of ASCII and of Latin-1. *)
Definition isalpha (c : ascii) : bool :=
  in_range 65 90 c || in_range 97 122 c
  || (code c =? 170)%N || (code c =? 181)%N || (code c =? 186)%N
  || (in_range 192 255 c && negb (code c =? 215)%N && negb (code c =? 247)%N).

(** [x.upper()], as code points: three small letters of Latin-1 have no
    capital letter below 256, or two of them. *)
Definition upper_char (c : ascii) : list N :=
  if in_range 97 122 c || (in_range 224 254 c && negb (code c =? 247)%N)
  then [(code c - 32)%N]
  else if (code c =? 255)%N then [376%N]
  else if (code c =? 181)%N then [924%N]
  else if (code c =? 223)%N then [83%N; 83%N]
  else [code c].

Definition upper (x : str) : list N := flat_map upper_char x.

(** The digits [int] accepts at most, [sys.get_int_max_str_digits()]. *)
Definition max_str_digits : nat := 4300.

(** [int(x)] for a string [x]: white space around an optional sign and
    digits, with single underscores between digits; or [ValueError]. *)
Definition int_of_str (x : str) : res Z :=
  let (neg, body) := take_sign (strip x) in
  match drop_underscores None body with
  | Some ((_ :: _) as ds) =>
      if forallb isdigit ds && bool_decide (length ds <= max_str_digits)%nat
      then Ok (cond_Zopp neg (digits_value ds))
      else Raise ValueError
  | _ => Raise ValueError
  end.

End PyText.

Import PyText.

(** ** The helpers of Optimization_KPOINTS/KPOINTS_TEST.py *)

Module KpointsFiles.

Local Open Scope float_scope.

Inductive msg : Type :=
| NoEnergy                          (* no energy could be extracted from the file *)
| NoKpoints (folder_path : str).    (* no value could be extracted from the name *)

(** The loop of the manual parse: the last word but one of the first line
    with the marker.  The function ends without a value when no line has
    it. *)
Fixpoint first_toten (lines : list str) : res (option float) :=
  match lines with
  | [] => Ok None
  | line :: lines' =>
      if contains Encut.toten line then
        w ← index (split line) (-2);
        energy ← float_of_str w;
        mret (Some energy)
      else first_toten lines'
  end.

(** [extract_energy_from_outcar(outcar_path)]; [ase] is what reading the
    file with ASE gives, an energy or an exception, and [file] the text of
    the file, if it can be opened. *)
Definition extract_energy_from_outcar (ase : res float) (file : option str)
  : py msg (option float) :=
  try_except (energy ← lift ase; mret (Some energy))
    (fun _ =>
       match file with
       | Some text =>
           try_except (lift (first_toten (readlines text)))
             (fun _ => print NoEnergy;; mret None)
       | None => print NoEnergy;; mret None
       end).

(** [get_kpoints_from_folder(folder_path)] *)
Definition get_kpoints_from_folder (folder_path : str) : py msg (option Z) :=
  try_except
    (last_part ← lift (index (split_on "_" folder_path) (-1));
     kpoints ← lift (int_of_str last_part);
     mret (Some kpoints))
    (fun _ => print (NoKpoints folder_path);; mret None).

End KpointsFiles.

(** ** The work function of BAND/Function.py *)

Module WorkFunction.

Local Open Scope float_scope.

Inductive msg : Type :=
| VacuumLevelNotFound               (* the typical value of graphene is used *)
| WorkFunctionIs (value : float).

Definition marker : str := s "vacuum level".

(** The loop over the lines of OUTCAR: the last word of the first line with
    the marker that ends in a number. *)
Fixpoint find_vacuum_level (lines : list str) : option float :=
  match lines with
  | [] => None
  | line :: lines' =>
      if contains marker line then
        match w ← index (split line) (-1); float_of_str w with
        | Ok v => Some v
        | Raise _ => find_vacuum_level lines'
        end
      else find_vacuum_level lines'
  end.

(** [calculate_work_function()]; [file] is the text of OUTCAR, if the file
    exists. *)
Definition calculate_work_function (file : option str) : py msg float :=
  let found :=
    match file with
    | Some text => find_vacuum_level (readlines text)
    | None => None
    end in
  vacuum_level ← match found with
                 | Some v => mret v
                 | None => print VacuumLevelNotFound;; mret 4.5
                 end;
  let fermi_level := 0 in
  let work_function := vacuum_level - fermi_level in
  print (WorkFunctionIs work_function);;
  mret work_function.

End WorkFunction.

(** ** BAND/BAND_Orbits.py *)

Module BandOrbits.

Local Open Scope float_scope.

Inductive msg : Type :=
| NoPointNearFermi.       (* no point near K is near the Fermi level *)

(** One turn of the loop of [read_klabels]: the label is the first word and
    the coordinate the second one; a line that starts with a star is a
    note. *)
Definition klabels_line (st : Dirac.klabels) (line : str) : res Dirac.klabels :=
  match strip line with
  | [] => Ok st
  | _ :: _ =>
      if startswith (s "*") line then Ok st
      else
        let parts := split line in
        if decide (2 <= length parts)%nat then
          let attempt :=
            q ← index parts 1;
            kpoint ← float_of_str q;
            label ← index parts 0;
            mret (st.1 ++ [kpoint], st.2 ++ [label]) in
          match attempt with
          | Raise ValueError => Ok st
          | r => r
          end
        else Ok st
  end.

Fixpoint klabels_lines (st : Dirac.klabels) (lines : list str) : res Dirac.klabels :=
  match lines with
  | [] => Ok st
  | line :: lines' => st' ← klabels_line st line; klabels_lines st' lines'
  end.

(** [read_klabels(filename)] on the text of the file: the first line is
    taken for the title. *)
Definition read_klabels (text : str) : res Dirac.klabels :=
  klabels_lines ([], []) (drop 1 (readlines text)).

(** [read_pband(filename)] on the table of the file: the path, the energies
    and the four columns of the orbitals after them. *)
Definition read_pband (data : ndarray2)
  : res (list float * list float * list (list float)) :=
  k_path ← column data 0;
  energy ← column data 1;
  mret (k_path, energy, map (fun r => slice r 2 (2 + 4)) (rows data)).

(** The index of the first label that is a [K] once in capital letters. *)
Fixpoint find_k_label (i : nat) (labels : list str) : option nat :=
  match labels with
  | [] => None
  | label :: labels' =>
      if bool_decide (upper label = [75%N]) then Some i else find_k_label (S i) labels'
  end.

(** [(a > centre - range) & (a < centre + range)] for one entry of [a] *)
Definition near (centre range : float) (x : float) : bool :=
  (centre - range <? x) && (x <? centre + range).

(** [a[mask]] for a mask as long as [a] *)
Fixpoint select {A} (mask : list bool) (a : list A) : res (list A) :=
  match mask, a with
  | [], [] => Ok []
  | b :: mask', x :: a' =>
      rest ← select mask' a';
      mret (if b then x :: rest else rest)
  | _, _ => Raise IndexError
  end.

(** What [analyze_dirac_cone_contributions] selects before it averages. *)
Record selection : Type :=
  { k_point_idx : nat;
    k_near : list float;
    energy_near : list float;
    orbitals_near : list (list float);
    e_mask : list bool }.

(** [analyze_dirac_cone_contributions(pband_file, klabels_file,
    fermi_energy)], up to the averages. *)
Definition select_dirac_cone (data : ndarray2) (klabels_text : str)
    (fermi_energy : float) : py msg selection :=
  '(k_path, energy, orbitals) ← lift (read_pband data);
  '(high_sym_k, high_sym_labels) ← lift (read_klabels klabels_text);
  match find_k_label 0 high_sym_labels with
  | None => raise ValueError
  | Some i =>
      k_point ← lift (index high_sym_k (Z.of_nat i));
      idx ← lift (argmin (map (fun k => abs (k - k_point)) k_path));
      let k_range := 2 in
      let k_mask := map (near k_point k_range) k_path in
      k_near ← lift (select k_mask k_path);
      energy_near ← lift (select k_mask energy);
      orbitals_near ← lift (select k_mask orbitals);
      let e_range := 2 in
      let e_mask := map (near fermi_energy e_range) energy_near in
      e_mask ← (if forallb negb e_mask then
                  print NoPointNearFermi;;
                  let e_range := 0.5 in
                  mret (map (near fermi_energy e_range) energy_near)
                else mret e_mask);
      mret {| k_point_idx := idx; k_near := k_near; energy_near := energy_near;
              orbitals_near := orbitals_near; e_mask := e_mask |}
  end.

End BandOrbits.

(** ** BAND/BAND.py *)

Module Band.

Local Open Scope float_scope.

(** One turn of the loop over the lines of the label file. *)
Definition klabels_line (st : Dirac.klabels) (line : str) : res Dirac.klabels :=
  match strip line with
  | [] => Ok st
  | _ :: _ =>
      let parts := split line in
      if decide (2 <= length parts)%nat then
        let attempt :=
          q ← index parts 1;
          coord ← float_of_str q;
          label ← index parts 0;
          let label := if str_eqb label (s "Gamma") then backslash :: s "Gamma" else label in
          mret (st.1 ++ [coord], st.2 ++ [label]) in
        match attempt with
        | Raise ValueError | Raise IndexError => Ok st
        | r => r
        end
      else Ok st
  end.

Fixpoint klabels_lines (st : Dirac.klabels) (lines : list str) : res Dirac.klabels :=
  match lines with
  | [] => Ok st
  | line :: lines' => st' ← klabels_line st line; klabels_lines st' lines'
  end.

(** The points and labels the script reads from the text of [KLABELS]. *)
Definition read_klabels (text : str) : res Dirac.klabels :=
  klabels_lines ([], []) (drop 1 (readlines text)).

End Band.

(** ** BAND/Orbit_Band.py *)

Module OrbitBand.

Local Open Scope float_scope.

(** The regular expression of a text: its characters in a row. *)
Fixpoint literal (c : ascii) (x : str) : regex :=
  match x with
  | [] => Cls (Ascii.eqb c)
  | d :: x' => Seq (Cls (Ascii.eqb c)) (literal d x')
  end.

(** [re.search]: what [at_start] gives at the leftmost position where the
    expression matches. *)
Fixpoint search {A} (at_start : str -> option A) (x : str) : option A :=
  match at_start x with
  | Some a => Some a
  | None => match x with [] => None | _ :: x' => search at_start x' end
  end.

(** [# Band-Index\s+(\d+)] at the start of [x]: the text of the group. *)
Definition band_index_at (x : str) : option str :=
  run (Seq (literal "#" (s " Band-Index")) (Plus isspace)) x
    (fun r1 => run (Plus isdigit) r1
       (fun r2 => Some (take (length r1 - length r2) r1))).

(** [np.array(rows)] for one row of floats or more: the rows have one
    length (NumPy 1.24 and later raise otherwise). *)
Definition np_array (rows : list (list float)) : res ndarray2 :=
  match rows with
  | [] => Raise ValueError
  | row :: rows' =>
      if forallb (fun r => (length r =? length row)%nat) rows'
      then Ok {| ncols := length row; rows := rows |}
      else Raise ValueError
  end.

(** [[list(map(float, line.split())) for line in data_lines]] *)
Definition parse_rows (data_lines : list str) : res (list (list float)) :=
  mapM (fun line => mapM float_of_str (split line)) data_lines.

(** The variables of [parse_band_data]. *)
Record state : Type :=
  { bands : gmap Z ndarray2;
    current_band : option Z;
    data_lines : list str }.

(** The lines read so far are stored as the table of the current band, when
    there are both. *)
Definition flush (st : state) : res state :=
  match current_band st, data_lines st with
  | Some band, _ :: _ =>
      rows ← parse_rows (data_lines st);
      band_array ← np_array rows;
      mret {| bands := <[band := band_array]> (bands st);
              current_band := Some band;
              data_lines := [] |}
  | _, _ => Ok st
  end.

(** One turn of the loop over the lines of the file. *)
Definition step (st : state) (raw : str) : res state :=
  let line := strip raw in
  match line with
  | [] => Ok st
  | c :: _ =>
      if startswith (s "# Band-Index") line then
        st ← flush st;
        match search band_index_at line with
        | Some digits =>
            band ← int_of_str digits;
            mret {| bands := bands st; current_band := Some band;
                    data_lines := data_lines st |}
        | None => Ok st
        end
      else if startswith (s "#K-Path") line || negb (isdigit_char c) then Ok st
      else Ok {| bands := bands st; current_band := current_band st;
                 data_lines := data_lines st ++ [line] |}
  end.

Fixpoint steps (st : state) (lines : list str) : res state :=
  match lines with
  | [] => Ok st
  | line :: lines' => st' ← step st line; steps st' lines'
  end.

(** [parse_band_data(filename)] on the text of the file. *)
Definition parse_band_data (text : str) : res (gmap Z ndarray2) :=
  st ← steps {| bands := ∅; current_band := None; data_lines := [] |} (readlines text);
  st ← flush st;
  mret (bands st).

End OrbitBand.

(** ** The tables of DOS/DOS.py *)

Module DosTables.

(** A line that is neither blank nor a comment. *)
Definition kept (line : str) : bool :=
  match strip line with
  | [] => false
  | _ :: _ => negb (startswith (s "#") line)
  end.

(** The lines given to [np.loadtxt] for [TDOS.dat] and for
    [PDOS_USER.dat]: the lines kept, without the first one when it holds a
    letter. *)
Definition data_lines (text : str) : list str :=
  let lines := filter (fun line => kept line = true) (readlines text) in
  match lines with
  | first :: rest => if existsb isalpha first then rest else lines
  | [] => lines
  end.

End DosTables.

(** * Properties

    ** Floats *)

Module FloatFacts.
Local Open Scope float_scope.

(** numpy's order on the specification of a float. *)
Definition sf_lt (a b : spec_float) : bool :=
  SFltb a b || (negb (SFeqb b b) && SFeqb a a).

Lemma np_lt_spec a b : np_lt a b = sf_lt (Prim2SF a) (Prim2SF b).
Proof. unfold np_lt, sf_lt. by rewrite FloatAxioms.ltb_spec, !FloatAxioms.eqb_spec. Qed.

(** A rank that orders the floats as numpy does: the class first, then the
    exponent and the mantissa, both reversed below zero. *)
Definition rank (a : spec_float) : Z * Z * Z :=
  match a with
  | S754_nan => (3, 0, 0)
  | S754_infinity false => (2, 0, 0)
  | S754_finite false m e => (1, e, Z.pos m)
  | S754_zero _ => (0, 0, 0)
  | S754_finite true m e => (-1, - e, Z.neg m)
  | S754_infinity true => (-2, 0, 0)
  end%Z.

Definition lex_lt (x y : Z * Z * Z) : Prop :=
  (x.1.1 < y.1.1 \/ (x.1.1 = y.1.1 /\ (x.1.2 < y.1.2 \/ (x.1.2 = y.1.2 /\ x.2 < y.2))))%Z.

Definition sf_isnan (a : spec_float) : bool :=
  match a with S754_nan => true | _ => false end.

Lemma pos_compare_cont_refl m : PosDef.Pos.compare_cont Eq m m = Eq.
Proof. exact (Pos.compare_refl m). Qed.

Lemma SFeqb_refl a : SFeqb a a = negb (sf_isnan a).
Proof.
  unfold SFeqb, SFcompare.
  destruct a as [[]|[]| |[] m e]; simpl; try done;
    by rewrite Z.compare_refl, pos_compare_cont_refl.
Qed.

Lemma sf_lt_rank a b : sf_lt a b = true <-> lex_lt (rank a) (rank b).
Proof.
  unfold sf_lt. rewrite !SFeqb_refl. unfold SFltb, SFcompare, lex_lt.
  destruct a as [[]|[]| |[] m1 e1], b as [[]|[]| |[] m2 e2]; simpl;
    try (split; [done | lia]); try (split; [lia | done]);
    change (PosDef.Pos.compare_cont Eq m1 m2) with (Pos.compare m1 m2);
    destruct (Z.compare_spec e1 e2); subst;
    try destruct (Pos.compare_spec m1 m2); subst; simpl;
    try (split; [done | lia]); try (split; [lia | done]).
Qed.

Lemma sf_lt_false a b : sf_lt a b = false <-> ~ lex_lt (rank a) (rank b).
Proof. rewrite <- sf_lt_rank. by destruct (sf_lt a b). Qed.


Lemma np_lt_negtrans a b c : np_lt a b = false -> np_lt b c = false -> np_lt a c = false.
Proof.
  rewrite !np_lt_spec, !sf_lt_false. unfold lex_lt. lia.
Qed.

Lemma sub_0_r x : x - 0 = x.
Proof.
  apply Prim2SF_inj. rewrite sub_spec.
  change (Prim2SF 0) with (S754_zero false).
  by destruct (Prim2SF x) as [[]|[]| |[] m e].
Qed.

Lemma abs_sub_diag x : abs (x - x) = if is_finite x then 0 else nan.
Proof.
  apply Prim2SF_inj. rewrite abs_spec, sub_spec. unfold is_finite.
  destruct (Prim2SF x) as [[]|[]| |sg m e]; try done.
  unfold SF64sub, SFsub. by rewrite Z.sub_diag.
Qed.

End FloatFacts.

(** ** Computations *)

Module PyFacts.

Lemma py_bind_assoc {M A B C} (c : py M A) (k : A -> py M B) (h : B -> py M C) :
  (c ≫= k) ≫= h = c ≫= (fun a => k a ≫= h).
Proof.
  unfold mbind, py_bind, bind. destruct c as [out [a|e]]; [|done].
  destruct (k a) as [out' [b|e]]; [|done].
  destruct (h b) as [out'' r]. by rewrite app_assoc.
Qed.

Lemma py_bind_ext {M A B} (c : py M A) (k k' : A -> py M B) :
  (forall a, k a = k' a) -> c ≫= k = c ≫= k'.
Proof.
  intros H. unfold mbind, py_bind, bind. destruct c as [out [a|e]]; [|done].
  by rewrite H.
Qed.

Lemma py_bind_ok {M A B} (out : list M) (a : A) (k : A -> py M B) :
  ((out, Ok a) : py M A) ≫= k = (out ++ printed (k a), outcome (k a)).
Proof. unfold mbind, py_bind, bind. by destruct (k a). Qed.

Lemma py_bind_raise {M A B} (out : list M) (e : exn) (k : A -> py M B) :
  ((out, Raise e) : py M A) ≫= k = (out, Raise e).
Proof. done. Qed.

Lemma py_ret_bind {M A B} (a : A) (k : A -> py M B) : mret a ≫= k = k a.
Proof. unfold mbind, mret, py_bind, py_ret, bind, ret. by destruct (k a). Qed.

Lemma py_lift_bind {M A B} (a : A) (k : A -> py M B) :
  (lift (Ok a) : py M A) ≫= k = k a.
Proof. unfold mbind, py_bind, bind, lift. by destruct (k a). Qed.

Lemma py_print_bind {M B} (m : M) (k : unit -> py M B) :
  print m ≫= k = (m :: printed (k tt), outcome (k tt)).
Proof. unfold mbind, py_bind, bind, print. by destruct (k tt). Qed.

Lemma py_bind_inv {M A B} (c : py M A) (k : A -> py M B) log b :
  c ≫= k = (log, Ok b) ->
  exists out a out', c = (out, Ok a) /\ k a = (out', Ok b) /\ log = out ++ out'.
Proof.
  unfold mbind, py_bind, bind. destruct c as [out [a|e]]; [|done].
  destruct (k a) as [out' r] eqn:Hk. intros [= <- ->]. by exists out, a, out'.
Qed.

Lemma lift_inv {M A} (r : res A) (log : list M) a :
  lift r = (log, Ok a) -> r = Ok a /\ log = [].
Proof. unfold lift. by intros [= <- ->]. Qed.

End PyFacts.

(** ** Sequences *)

Module SeqFacts.

Lemma index_nat {A} (l : list A) (i : nat) a :
  l !! i = Some a -> index l (Z.of_nat i) = Ok a.
Proof.
  intros H. unfold index.
  pose proof (lookup_lt_Some _ _ _ H) as Hlt.
  destruct (Z.ltb_spec (Z.of_nat i) 0); [lia|].
  destruct (Z.leb_spec 0 (Z.of_nat i)); [|lia].
  destruct (Z.ltb_spec (Z.of_nat i) (Z.of_nat (length l))); [|lia].
  simpl. by rewrite Nat2Z.id, H.
Qed.

Lemma index_last {A} (l : list A) a : last l = Some a -> index l (-1) = Ok a.
Proof.
  intros H. unfold index. rewrite last_lookup in H.
  pose proof (lookup_lt_Some _ _ _ H) as Hlt.
  change (-1 <? 0) with true. cbv iota.
  destruct (Z.leb_spec 0 (Z.of_nat (length l) + -1)); [|lia].
  destruct (Z.ltb_spec (Z.of_nat (length l) + -1) (Z.of_nat (length l))); [|lia].
  simpl. replace (Z.to_nat (Z.of_nat (length l) + -1)) with (pred (length l)) by lia.
  by rewrite H.
Qed.

Lemma diff_length a : length (diff a) = pred (length a).
Proof.
  induction a as [|x [|y a'] IH]; simpl in *; try done. by rewrite IH.
Qed.

Lemma diff_lookup a i x y :
  a !! i = Some x -> a !! S i = Some y -> diff a !! i = Some (y - x)%float.
Proof.
  revert i. induction a as [|x0 [|y0 a'] IH]; intros [|i] Hx Hy; simpl in *; try done.
  - by simplify_eq.
  - by apply IH.
Qed.

Lemma index_nat_inv {A} (l : list A) (i : nat) a :
  index l (Z.of_nat i) = Ok a -> l !! i = Some a.
Proof.
  unfold index. destruct (Z.ltb_spec (Z.of_nat i) 0); [lia|].
  destruct (_ && _); [|done]. rewrite Nat2Z.id.
  by destruct (l !! i); intros [= ->].
Qed.

End SeqFacts.

(** ** The cutoff sweep *)

Module EncutFacts.
Import Encut PyFacts SeqFacts.
Local Open Scope float_scope.

Lemma convergence_index_first ds : forall n i,
  (forall j d, (j < i)%nat -> ds !! j = Some d -> (d <? 0.001) = false) ->
  (exists d, ds !! i = Some d /\ (d <? 0.001) = true) ->
  convergence_index n ds = Some (S (n + i)).
Proof.
  induction ds as [|d0 ds IH]; intros n i Hbefore [d [Hd Hlt]].
  - done.
  - destruct i as [|i]; simpl in *.
    + simplify_eq. rewrite Hlt. f_equal. lia.
    + rewrite (Hbefore 0%nat d0) by (done || lia).
      rewrite (IH (S n) i); [f_equal; lia| |by eauto].
      intros j d' Hj Hd'. apply (Hbefore (S j)); [lia|done].
Qed.

Lemma convergence_index_none ds : forall n,
  Forall (fun d => (d <? 0.001) = false) ds -> convergence_index n ds = None.
Proof.
  induction ds as [|d ds IH]; intros n Hall; [done|].
  inversion Hall; subst. simpl. rewrite H1. by apply IH.
Qed.


Lemma read_energies_app outcar before : forall rest acc,
  read_energies outcar (before ++ rest) acc =
  read_energies outcar before acc ≫= read_energies outcar rest.
Proof.
  induction before as [|encut before IH]; intros rest acc.
  - cbn [app read_energies]. by rewrite py_ret_bind.
  - cbn [app read_energies]. destruct (outcar encut) as [text|].
    + rewrite !py_bind_assoc. apply py_bind_ext; intros energy.
      rewrite !py_bind_assoc. apply py_bind_ext; intros e.
      rewrite !py_bind_assoc. apply py_bind_ext; intros _. apply IH.
    + rewrite !py_bind_assoc. apply py_bind_ext; intros _. apply IH.
Qed.

Lemma extract_energy_no_marker lines :
  Forall (fun line => contains toten line = false) lines ->
  extract_energy_from_lines lines = Ok None.
Proof.
  induction 1 as [|line lines Hline _ IH]; simpl; [done|]. by rewrite Hline.
Qed.

End EncutFacts.

(** ** The k-point sweep *)

Module KpointsFacts.
Import Kpoints PyFacts SeqFacts FloatFacts.
Local Open Scope float_scope.

Lemma mapM_res_ok {A B} (f : A -> res B) (g : A -> B) (l : list A) :
  Forall (fun a => f a = Ok (g a)) l -> mapM f l = Ok (map g l).
Proof.
  induction 1 as [|a l Ha _ IH]; [done|].
  cbn [mapM map]. rewrite Ha, IH. reflexivity.
Qed.

Lemma scan_finds ks : forall i diffs,
  (exists j k d, ks !! j = Some k /\ diffs !! (i + j)%nat = Some d
                 /\ (d <? threshold) = true) ->
  (forall j, (j < length ks)%nat -> is_Some (diffs !! (i + j)%nat)) ->
  exists k, k ∈ ks /\ scan i ks diffs = ([ConvergedAt k], Ok (Some k)).
Proof.
  induction ks as [|k0 ks IH]; intros i diffs [j [k [d [Hk [Hd Hlt]]]]] Hall.
  - done.
  - destruct (Hall 0%nat) as [d0 Hd0]; [simpl; lia|].
    rewrite Nat.add_0_r in Hd0.
    cbn [scan]. rewrite (index_nat _ _ _ Hd0), py_lift_bind.
    destruct (d0 <? threshold) eqn:Hd0lt.
    + exists k0. split; [constructor|done].
    + destruct j as [|j].
      { rewrite Nat.add_0_r in Hd. simplify_eq. congruence. }
      destruct (IH (S i) diffs) as [k' [Hin Hscan]].
      * exists j, k, d. split; [done|]. split; [|done].
        by replace (S i + j)%nat with (i + S j)%nat by lia.
      * intros j' Hj'. replace (S i + j')%nat with (i + S j')%nat by lia.
        apply Hall. simpl. lia.
      * exists k'. split; [by constructor|done].
Qed.

Lemma report_ok ks : forall i diffs,
  (forall j, (j < length ks)%nat -> is_Some (diffs !! (i + j)%nat)) ->
  report i ks diffs = (zip_with Difference ks (drop i diffs), Ok tt).
Proof.
  induction ks as [|k0 ks IH]; intros i diffs Hall; [done|].
  destruct (Hall 0%nat) as [d0 Hd0]; [simpl; lia|].
  rewrite Nat.add_0_r in Hd0.
  cbn [report]. rewrite (index_nat _ _ _ Hd0), py_lift_bind, py_print_bind.
  rewrite (drop_S _ _ _ Hd0), IH; [done|].
  intros j' Hj'. replace (S i + j')%nat with (i + S j')%nat by lia.
  apply Hall. simpl. lia.
Qed.

Lemma sorted_keys_elem (results : gmap Z float) k :
  k ∈ sorted_keys results <-> is_Some (results !! k).
Proof.
  unfold sorted_keys. rewrite merge_sort_Permutation.
  rewrite list_elem_of_fmap. split.
  - intros [[k' e] [-> Hin]]. apply elem_of_map_to_list in Hin. by eexists.
  - intros [e He]. exists (k, e). split; [done|]. by apply elem_of_map_to_list.
Qed.

Lemma sorted_keys_last (results : gmap Z float) kmax :
  is_Some (results !! kmax) ->
  (forall k, is_Some (results !! k) -> (k <= kmax)%Z) ->
  last (sorted_keys results) = Some kmax.
Proof.
  intros Hin Hmax.
  pose proof (StronglySorted_merge_sort Z.le (map_to_list results).*1) as Hsorted.
  fold (sorted_keys results) in Hsorted.
  apply sorted_keys_elem in Hin.
  assert (Hle : forall k, k ∈ sorted_keys results -> (k <= kmax)%Z)
    by (intros k Hk; by apply Hmax, sorted_keys_elem).
  clear Hmax. revert Hsorted Hin Hle.
  generalize (sorted_keys results) as ks.
  intros ks. destruct ks as [|x ks' _] using rev_ind.
  - intros _ Hin. by apply elem_of_nil in Hin.
  - intros Hsorted Hin Hle. rewrite last_snoc. f_equal.
    apply Z.le_antisymm; [apply Hle, elem_of_app; right; constructor|].
    apply elem_of_app in Hin as [Hin|Hin].
    + apply (StronglySorted_app_1_elem_of _ _ _ kmax x Hsorted); [done|constructor].
    + apply list_elem_of_singleton in Hin. lia.
Qed.

Lemma difference_infinite_reference e ref :
  is_finite ref = false -> (abs (e - ref) <? threshold) = false.
Proof.
  unfold is_finite. intros Href.
  rewrite FloatAxioms.ltb_spec, abs_spec, sub_spec.
  destruct (Prim2SF ref) as [[]|[]| |[] m' e'] eqn:Hr; try done;
    destruct (Prim2SF e) as [[]|[]| |[] m e0]; done.
Qed.

Lemma difference_finite_reference ref :
  is_finite ref = true -> (abs (ref - ref) <? threshold) = true.
Proof. intros Href. by rewrite abs_sub_diag, Href. Qed.

Lemma scan_none ks : forall i diffs,
  (forall j, (j < length ks)%nat ->
     exists d, diffs !! (i + j)%nat = Some d /\ (d <? threshold) = false) ->
  scan i ks diffs = ([], Ok None).
Proof.
  induction ks as [|k0 ks IH]; intros i diffs Hall; [done|].
  destruct (Hall 0%nat) as [d0 [Hd0 Hge]]; [simpl; lia|].
  rewrite Nat.add_0_r in Hd0.
  cbn [scan]. rewrite (index_nat _ _ _ Hd0), py_lift_bind, Hge.
  apply IH. intros j Hj. replace (S i + j)%nat with (i + S j)%nat by lia.
  apply Hall. simpl. lia.
Qed.

(** The energy stored for a key, for keys of the dictionary. *)
Definition energy_of (results : gmap Z float) (k : Z) : float :=
  default nan (results !! k).

Lemma analyze_outcome (results : gmap Z float) kmax ref :
  results !! kmax = Some ref ->
  (forall k, is_Some (results !! k) -> (k <= kmax)%Z) ->
  exists out,
    last out = Some (Difference kmax (if is_finite ref then 0 else nan)) /\
    if is_finite ref
    then exists k, is_Some (results !! k)
                   /\ analyze results = (out ++ [ConvergedAt k], Ok tt)
    else analyze results = (out ++ [NoConvergence], Ok tt).
Proof.
  intros Href Hmax. unfold analyze.
  set (ks := sorted_keys results).
  assert (Hlast : last ks = Some kmax) by (apply sorted_keys_last; eauto).
  rewrite (mapM_res_ok _ (energy_of results)); cycle 1.
  { apply Forall_forall. intros k Hk. apply sorted_keys_elem in Hk as [e He].
    unfold energy_of. by rewrite He. }
  rewrite py_lift_bind.
  assert (Hlast_e : last (map (energy_of results) ks) = Some ref).
  { change (last (energy_of results <$> ks) = Some ref).
    rewrite fmap_last, Hlast. simpl. unfold energy_of. by rewrite Href. }
  rewrite (index_last _ _ Hlast_e), py_lift_bind.
  set (diffs := map (fun e => abs (e - ref)) (map (energy_of results) ks)).
  assert (Hlen : length diffs = length ks) by (unfold diffs; by rewrite !length_map).
  assert (Hsome : forall j, (j < length ks)%nat -> is_Some (diffs !! (0 + j)%nat)).
  { intros j Hj. apply lookup_lt_is_Some. simpl. lia. }
  assert (Hlast_d : diffs !! pred (length ks) = Some (abs (ref - ref))).
  { rewrite last_lookup in Hlast. unfold diffs.
    rewrite !list_lookup_fmap, Hlast. simpl. unfold energy_of. by rewrite Href. }
  rewrite (report_ok ks 0 diffs Hsome), py_bind_ok. rewrite drop_0.
  exists (zip_with Difference ks diffs). split.
  { rewrite last_lookup, length_zip_with, Hlen, Nat.min_id, lookup_zip_with.
    rewrite last_lookup in Hlast. rewrite Hlast, Hlast_d. simpl.
    by rewrite abs_sub_diag. }
  destruct (is_finite ref) eqn:Hfin.
  - destruct (scan_finds ks 0 diffs) as [k [Hk Hscan]]; [|exact Hsome|].
    + rewrite last_lookup in Hlast.
      exists (pred (length ks)), kmax, (abs (ref - ref)). split; [done|]. split.
      * exact Hlast_d.
      * by apply difference_finite_reference.
    + exists k. split; [by apply sorted_keys_elem|].
      rewrite Hscan, py_bind_ok. reflexivity.
  - rewrite (scan_none ks 0 diffs), py_bind_ok; [reflexivity|].
    intros j Hj. destruct (Hsome j Hj) as [d Hd]. exists d. split; [done|].
    unfold diffs in Hd. rewrite list_lookup_fmap in Hd.
    destruct (map (energy_of results) ks !! (0 + j)%nat) as [e|]; [|done].
    simpl in Hd. simplify_eq. by apply difference_infinite_reference.
Qed.

(** The loop over the folders returns, and keeps every valid result. *)
Lemma collect_returns found : forall acc,
  exists log results,
    collect found acc = (log, Ok results)
    /\ (forall k, is_Some (acc !! k) -> is_Some (results !! k))
    /\ (forall k e, (Some k, Some e) ∈ found -> is_Some (results !! k)).
Proof.
  induction found as [|[[k0|] [e0|]] found IH]; intros acc.
  - exists [], acc. split; [done|]. split; [done|]. intros k e Hin. by apply elem_of_nil in Hin.
  - destruct (IH (<[k0 := e0]> acc)) as (log & results & Hrun & Hacc & Hfound).
    exists (Energy k0 e0 :: log), results. split; [|split].
    + cbn [collect]. by rewrite py_print_bind, Hrun.
    + intros k Hk. apply Hacc. rewrite lookup_insert. case_decide; [by eexists|done].
    + intros k e Hin. apply elem_of_cons in Hin as [[= -> ->]|Hin]; [|by eapply Hfound].
      apply Hacc. rewrite lookup_insert_eq. by eexists.
  - destruct (IH acc) as (log & results & Hrun & Hacc & Hfound).
    exists log, results. split; [done|]. split; [done|].
    intros k e Hin. apply elem_of_cons in Hin as [[=]|Hin]. by eapply Hfound.
  - destruct (IH acc) as (log & results & Hrun & Hacc & Hfound).
    exists log, results. split; [done|]. split; [done|].
    intros k e Hin. apply elem_of_cons in Hin as [[=]|Hin]. by eapply Hfound.
  - destruct (IH acc) as (log & results & Hrun & Hacc & Hfound).
    exists log, results. split; [done|]. split; [done|].
    intros k e Hin. apply elem_of_cons in Hin as [[=]|Hin]. by eapply Hfound.
Qed.

(** A dictionary that is not empty has a largest key. *)
Lemma largest_key (results : gmap Z float) k0 :
  is_Some (results !! k0) ->
  exists kmax ref,
    results !! kmax = Some ref
    /\ forall k, is_Some (results !! k) -> (k <= kmax)%Z.
Proof.
  intros Hk0. apply sorted_keys_elem in Hk0.
  pose proof (StronglySorted_merge_sort Z.le (map_to_list results).*1) as Hsorted.
  fold (sorted_keys results) in Hsorted.
  assert (Hkeys : forall k, is_Some (results !! k) -> k ∈ sorted_keys results)
    by (intros k; apply sorted_keys_elem).
  assert (Hin : forall k, k ∈ sorted_keys results -> is_Some (results !! k))
    by (intros k; apply sorted_keys_elem).
  revert Hk0 Hsorted Hkeys Hin. generalize (sorted_keys results) as ks.
  intros ks. destruct ks as [|x ks' _] using rev_ind.
  - intros Hk0. by apply elem_of_nil in Hk0.
  - intros _ Hsorted Hkeys Hin.
    destruct (Hin x) as [ref Href]; [apply elem_of_app; right; constructor|].
    exists x, ref. split; [exact Href|].
    intros k Hk. apply Hkeys, elem_of_app in Hk as [Hk|Hk].
    + apply (StronglySorted_app_1_elem_of _ _ _ k x Hsorted); [done|constructor].
    + apply list_elem_of_singleton in Hk. lia.
Qed.

End KpointsFacts.

(** ** Regular expressions *)

Module ReFacts.

(** The strings of the language of a regular expression. *)
Inductive matches : regex -> str -> Prop :=
| matches_cls p c : p c = true -> matches (Cls p) [c]
| matches_opt_none r : matches (Opt r) []
| matches_opt_some r m : matches r m -> matches (Opt r) m
| matches_star p m : Forall (fun c => p c = true) m -> matches (Star p) m
| matches_plus p c m :
    p c = true -> Forall (fun c => p c = true) m -> matches (Plus p) (c :: m)
| matches_seq r1 r2 m1 m2 : matches r1 m1 -> matches r2 m2 -> matches (Seq r1 r2) (m1 ++ m2)
| matches_alt_l r1 r2 m : matches r1 m -> matches (Alt r1 r2) m
| matches_alt_r r1 r2 m : matches r2 m -> matches (Alt r1 r2) m.






End ReFacts.

(** ** Numerals *)

Module FloatParseFacts.
Import ReFacts.

Definition digits (ds : str) : Prop := Forall (fun c => isdigit c = true) ds.

(** A digit is no white space, underscore, sign or point, and no letter. *)
Lemma digit_plain c :
  isdigit c = true ->
  isspace c = false /\ Ascii.eqb c "_" = false /\ Ascii.eqb c "-" = false
  /\ Ascii.eqb c "+" = false /\ Ascii.eqb c "." = false
  /\ lower_char c <> "i"%char /\ lower_char c <> "n"%char.
Proof.
  destruct c as [[] [] [] [] [] [] [] []]; intros H; try discriminate H;
    repeat split; try reflexivity; discriminate.
Qed.

(** The characters of the numerals that [Dos.numeric] matches. *)
Definition numeral_char (c : ascii) : bool :=
  isdigit c || Ascii.eqb c "." || Ascii.eqb c "-" || Ascii.eqb c "+".

Lemma numeral_char_plain c :
  numeral_char c = true -> isspace c = false /\ Ascii.eqb c "_" = false.
Proof.
  destruct c as [[] [] [] [] [] [] [] []]; intros H; try discriminate H;
    split; reflexivity.
Qed.

Lemma lstrip_plain x :
  Forall (fun c => isspace c = false) x -> lstrip x = x.
Proof. intros [|c x' Hc _]; simpl; [done|]. by rewrite Hc. Qed.

(** Nothing is stripped from a string without white space. *)
Lemma strip_plain x :
  Forall (fun c => isspace c = false) x -> strip x = x.
Proof.
  intros Hx. unfold strip, rstrip. rewrite (lstrip_plain x Hx).
  rewrite lstrip_plain; [apply rev_involutive|].
  apply Forall_forall. intros c Hc. rewrite Forall_forall in Hx.
  apply Hx. apply list_elem_of_In. apply list_elem_of_In, in_rev in Hc. exact Hc.
Qed.

Definition no_underscore (x : str) : Prop := Forall (fun c => Ascii.eqb c "_" = false) x.

Lemma drop_underscores_plain x : forall prev,
  match prev with Some p => Ascii.eqb p "_" = false | None => True end ->
  no_underscore x -> drop_underscores prev x = Some x.
Proof.
  induction x as [|c x IH]; intros prev Hprev Hx; simpl.
  - destruct prev as [p|]; [by rewrite Hprev|done].
  - inversion Hx as [|? ? Hc Hx']; subst. rewrite Hc.
    replace (match prev with Some p => Ascii.eqb p "_" | None => false end) with false
      by (destruct prev as [p|]; [by rewrite Hprev|done]).
    simpl. by rewrite (IH (Some c) Hc Hx').
Qed.

Lemma span_digits_all ds : digits ds -> span_digits ds = (ds, []).
Proof.
  induction 1 as [|c ds Hc _ IH]; simpl; [done|]. by rewrite Hc, IH.
Qed.

Lemma span_digits_stop ds c rest :
  digits ds -> isdigit c = false -> span_digits (ds ++ c :: rest) = (ds, c :: rest).
Proof.
  intros Hds Hc. induction Hds as [|d ds Hd _ IH]; simpl.
  - by rewrite Hc.
  - by rewrite Hd, IH.
Qed.

(** A numeral without sign or exponent: digits, or digits, a point and one
    digit or more. *)
Inductive plain_numeral : str -> Prop :=
| plain_integer d ds : isdigit d = true -> digits ds -> plain_numeral (d :: ds)
| plain_fraction ds1 d ds2 :
    digits ds1 -> isdigit d = true -> digits ds2 ->
    plain_numeral (ds1 ++ "."%char :: d :: ds2).

Lemma plain_numeral_chars body :
  plain_numeral body -> Forall (fun c => numeral_char c = true) body.
Proof.
  assert (Hd : forall ds, digits ds -> Forall (fun c => numeral_char c = true) ds).
  { intros ds Hds. eapply Forall_impl; [exact Hds|].
    intros c Hc. unfold numeral_char. simpl in Hc. by rewrite Hc. }
  assert (H1 : forall d, isdigit d = true -> numeral_char d = true).
  { intros d Hc. unfold numeral_char. by rewrite Hc. }
  intros [d ds Hdig Hds|ds1 d ds2 Hds1 Hdig Hds2].
  - constructor; auto.
  - apply Forall_app. split; [auto|]. constructor; [reflexivity|]. constructor; auto.
Qed.

Lemma plain_numeral_head body :
  plain_numeral body ->
  exists c rest, body = c :: rest
    /\ Ascii.eqb c "-" = false /\ Ascii.eqb c "+" = false
    /\ lower_char c <> "i"%char /\ lower_char c <> "n"%char.
Proof.
  intros [d ds Hdig Hds|ds1 d ds2 Hds1 Hdig Hds2].
  - exists d, ds. split; [done|]. by destruct (digit_plain d Hdig) as (_ & _ & ? & ? & _ & ? & ?).
  - destruct Hds1 as [|d1 ds1 Hd1 Hds1]; simpl.
    + eexists _, _. split; [done|]. by repeat split.
    + exists d1, (ds1 ++ "."%char :: d :: ds2). split; [done|].
      by destruct (digit_plain d1 Hd1) as (_ & _ & ? & ? & _ & ? & ?).
Qed.

Lemma plain_numeral_decimal body :
  plain_numeral body -> exists m e, decimal_numeral body = Some (m, e).
Proof.
  intros [d ds Hdig Hds|ds1 d ds2 Hds1 Hdig Hds2]; unfold decimal_numeral.
  - rewrite (span_digits_all (d :: ds)) by (by constructor). simpl. by eexists _, _.
  - rewrite (span_digits_stop ds1 "." (d :: ds2) Hds1 eq_refl).
    change (Ascii.eqb "." ".") with true. cbv iota.
    rewrite (span_digits_all (d :: ds2)) by (by constructor).
    destruct ds1; simpl; by eexists _, _.
Qed.

Lemma special_numeral_plain neg body :
  plain_numeral body -> special_numeral neg body = None.
Proof.
  intros Hb. destruct (plain_numeral_head body Hb) as (c & rest & -> & _ & _ & Hi & Hn).
  unfold special_numeral, str_eqb. simpl.
  rewrite !bool_decide_eq_false_2; [done|..]; intros [= ? _]; done.
Qed.

(** A plain numeral, with a sign or without, is a float. *)
Lemma parse_plain_numeral sg body :
  sg = [] \/ sg = ["-"%char] \/ sg = ["+"%char] ->
  plain_numeral body ->
  exists v, parse_float (sg ++ body) = Some v.
Proof.
  intros Hsg Hb.
  assert (Hchars : Forall (fun c => numeral_char c = true) (sg ++ body)).
  { apply Forall_app. split; [|by apply plain_numeral_chars].
    destruct Hsg as [->|[->| ->]]; repeat constructor. }
  unfold parse_float.
  rewrite strip_plain by (eapply Forall_impl; [exact Hchars|]; intros c Hc;
                          by apply numeral_char_plain).
  rewrite (drop_underscores_plain _ None I)
    by (eapply Forall_impl; [exact Hchars|]; intros c Hc; by apply numeral_char_plain).
  assert (Hsign : exists neg, take_sign (sg ++ body) = (neg, body)).
  { destruct (plain_numeral_head body Hb) as (c & rest & -> & Hm & Hp & _).
    destruct Hsg as [->|[->| ->]]; simpl; [|by eexists..].
    rewrite Hm, Hp. by eexists. }
  destruct Hsign as [neg ->].
  rewrite (special_numeral_plain neg body Hb).
  destruct (plain_numeral_decimal body Hb) as (m & e & ->). by eexists.
Qed.


End FloatParseFacts.

(** ** The label file *)

Module KlabelsFacts.
Import Dirac PyFacts SeqFacts.

(** What a data line adds to the points and the labels: nothing, or its
    last word as a number and its first word without backslashes. *)
Definition entry (line : str) : option (float * str) :=
  match strip line with
  | [] => None
  | _ :: _ =>
      match split line with
      | first :: _ :: _ =>
          match last (split line) with
          | Some q =>
              match parse_float q with
              | Some coord => Some (coord, replace backslash [] first)
              | None => None
              end
          | None => None
          end
      | _ => None
      end
  end.

Definition add_entry (st : klabels) (e : option (float * str)) : klabels :=
  match e with
  | Some (coord, label) => (st.1 ++ [coord], st.2 ++ [label])
  | None => st
  end.

Lemma klabels_line_entry st line : klabels_line st line = Ok (add_entry st (entry line)).
Proof.
  unfold klabels_line, entry.
  destruct (strip line); [done|].
  destruct (split line) as [|first [|second rest]] eqn:Hsplit; try done.
  case_decide; [|simpl in *; lia].
  change (index (first :: second :: rest) 0) with (Ok first).
  destruct (last (first :: second :: rest)) as [q|] eqn:Hlast;
    [|by apply last_None in Hlast].
  cbn [mbind res_bind]. rewrite (index_last _ _ Hlast).
  unfold mbind, res_bind, mret, res_ret, float_of_str.
  by destruct (parse_float q).
Qed.

Lemma klabels_lines_entries lines : forall st,
  klabels_lines st lines = ([], Ok (fold_left add_entry (map entry lines) st)).
Proof.
  induction lines as [|line lines IH]; intros st; [done|].
  cbn [klabels_lines map fold_left]. by rewrite klabels_line_entry, IH.
Qed.

(** A line whose last word is not a number adds nothing. *)
Lemma entry_bad_coordinate line q :
  last (split line) = Some q -> parse_float q = None -> entry line = None.
Proof.
  intros Hlast Hq. unfold entry. destruct (strip line); [done|].
  destruct (split line) as [|first [|second rest]]; try done.
  by rewrite Hlast, Hq.
Qed.

Lemma blank_entry line : blank line = true -> entry line = None.
Proof. unfold blank, entry. by destruct (strip line). Qed.

(** The lines after the header, if there is one. *)
Definition after_header (lines : list str) : list str :=
  match lines with
  | l0 :: rest => if is_header l0 then rest else lines
  | [] => []
  end.

(** Skipping one blank line after the header changes nothing, since the
    loop passes over blank lines. *)
Lemma start_index_entries lines st :
  fold_left add_entry (map entry (drop (start_index lines) lines)) st
  = fold_left add_entry (map entry (after_header lines)) st.
Proof.
  unfold start_index, after_header.
  destruct lines as [|l0 rest]; [done|].
  destruct (is_header l0).
  - destruct rest as [|l1 rest]; [done|]. simpl.
    destruct (blank l1) eqn:Hb; [|done]. simpl. by rewrite blank_entry.
  - simpl. destruct (blank l0) eqn:Hb; [|done]. simpl. by rewrite blank_entry.
Qed.

Lemma read_klabels_entries text :
  read_klabels (Some text)
  = ([], Ok (fold_left add_entry (map entry (after_header (readlines text))) ([], []))).
Proof.
  unfold read_klabels. by rewrite klabels_lines_entries, start_index_entries.
Qed.

Lemma add_entry_length st e :
  length st.1 = length st.2 -> length (add_entry st e).1 = length (add_entry st e).2.
Proof.
  intros H. destruct e as [[coord label]|]; simpl; [|done].
  rewrite !length_app. simpl. lia.
Qed.

(** [read_klabels] returns for every file, with as many points as labels. *)
Lemma read_klabels_returns file :
  exists out kl,
    read_klabels file = (out, Ok kl) /\ length kl.1 = length kl.2.
Proof.
  destruct file as [text|].
  - rewrite read_klabels_entries. eexists _, _. split; [reflexivity|].
    generalize (map entry (after_header (readlines text))).
    assert (H0 : length (([], []) : klabels).1 = length (([], []) : klabels).2) by done.
    revert H0. generalize (([], []) : klabels).
    intros st Hst l. revert st Hst.
    induction l as [|e l IH]; intros st Hst; [done|].
    simpl. by apply IH, add_entry_length.
  - by eexists _, _.
Qed.

End KlabelsFacts.

(** ** Sorting indices *)

Module NpFacts.
Import FloatFacts.
Local Open Scope float_scope.

Section Argsort.
Variable key : nat -> float.






End Argsort.








End NpFacts.

(** ** The Dirac cone *)

Module DiracFacts.
Import Dirac PyFacts SeqFacts FloatFacts NpFacts KlabelsFacts.
Local Open Scope float_scope.








Lemma find_k_lt labels : forall i j,
  find_k i labels = Some j -> (i <= j < i + length labels)%nat.
Proof.
  induction labels as [|label labels IH]; intros i j; simpl; [done|].
  case_bool_decide.
  - intros [= <-]. lia.
  - intros Hj. apply IH in Hj. lia.
Qed.









End DiracFacts.

(** ** The density of states *)

Module DosFacts.
Import Dos PyFacts SeqFacts.
Local Open Scope float_scope.




End DosFacts.

(** * The claims *)

Section Claims.
Import PyFacts SeqFacts FloatFacts NpFacts ReFacts FloatParseFacts.
Import EncutFacts KpointsFacts KlabelsFacts DiracFacts DosFacts.
Local Open Scope float_scope.

(** C1.  In the ENCUT sweep the absolute differences of adjacent energies
    are scanned from the smallest value upward, and convergence is declared
    at the value that follows the first difference strictly below 0.001:
    when the energies read for [values] are [energies], the difference at
    [i] is the first one below 0.001 and [v] is the value at [i + 1], the
    sweep prints that it converged at [v] and returns the values and the
    energies. *)
Theorem encut_converges_after_first_small_difference
    (values : list Z) (outcar : Z -> option str) (log : list Encut.msg)
    (energies : list float) (i : nat) (v : Z) :
  Encut.read_energies outcar values [] = (log, Ok energies) ->
  (forall j d, (j < i)%nat ->
     map abs (diff energies) !! j = Some d -> (d <? 0.001) = false) ->
  (exists d, map abs (diff energies) !! i = Some d /\ (d <? 0.001) = true) ->
  values !! S i = Some v ->
  Encut.analyze_convergence values outcar
  = (log ++ [Encut.Converged v], Ok (values, energies)).
Proof.
  intros Hread Hbefore Hat Hv.
  unfold Encut.analyze_convergence. rewrite Hread.
  assert (Hlen : (1 < length energies)%nat).
  { destruct Hat as [d [Hd _]]. apply lookup_lt_Some in Hd.
    rewrite length_map, diff_length in Hd. lia. }
  rewrite py_bind_ok.
  unfold Encut.mark_convergence. case_decide; [|lia].
  rewrite (convergence_index_first _ 0 i Hbefore Hat).
  rewrite (index_nat values (S (0 + i)) v Hv).
  reflexivity.
Qed.

(** The sweep of the claim: the values 200, 250 and 300, whose OUTCAR files
    hold the energies -10.000, -10.0005 and -10.0006. *)
Definition sweep_values : list Z := [200; 250; 300]%Z.

Definition toten_line (energy : string) : str :=
  s "  free  energy   TOTEN  =       " ++ s energy ++ s " eV" ++ [ascii_of_N 10].

Definition sweep_outcar (encut : Z) : option str :=
  if (encut =? 200)%Z then Some (s " POSCAR: C" ++ [ascii_of_N 10] ++ toten_line "-10.000")
  else if (encut =? 250)%Z then Some (toten_line "-10.0005")
  else if (encut =? 300)%Z then Some (toten_line "-10.0006")
  else None.

Lemma encut_converges_witness :
  Encut.analyze_convergence sweep_values sweep_outcar
  = ([Encut.Energy 200 (-10.000); Encut.Energy 250 (-10.0005);
      Encut.Energy 300 (-10.0006); Encut.Converged 250],
     Ok (sweep_values, [-10.000; -10.0005; -10.0006])).
Proof.
  apply (encut_converges_after_first_small_difference sweep_values sweep_outcar
           [Encut.Energy 200 (-10.000); Encut.Energy 250 (-10.0005);
            Encut.Energy 300 (-10.0006)]
           [-10.000; -10.0005; -10.0006] 0 250).
  - vm_compute. reflexivity.
  - intros j d Hj. lia.
  - exists (abs (-10.0005 - -10.000)). split; vm_compute; reflexivity.
  - reflexivity.
Defined.

(** The script's own values, with the three OUTCAR files of the sweep above
    and no file for the other five. *)
Example encut_script_values_converge_at_250 :
  printed (Encut.analyze_encut_convergence sweep_outcar)
  = [Encut.Energy 200 (-10.000); Encut.Energy 250 (-10.0005);
     Encut.Energy 300 (-10.0006); Encut.OutcarNotFound 350;
     Encut.OutcarNotFound 400; Encut.OutcarNotFound 450;
     Encut.OutcarNotFound 500; Encut.OutcarNotFound 550; Encut.Converged 250].
Proof. vm_compute. reflexivity. Qed.

(** C10.  When the OUTCAR of a value exists and none of its lines holds the
    marker [free  energy   TOTEN], [extract_energy_from_outcar] returns
    [None], and the sweep ends there with a [TypeError], raised when the
    energy is formatted: nothing is printed for that value and nothing is
    returned.  When the file is missing, the sweep prints so, puts a NaN in
    the place of the energy and goes on. *)
Theorem encut_outcar_without_toten_raises
    (values before after : list Z) (encut : Z) (outcar : Z -> option str)
    (text : str) (log : list Encut.msg) (energies : list float) :
  values = before ++ encut :: after ->
  Encut.read_energies outcar before [] = (log, Ok energies) ->
  outcar encut = Some text ->
  Forall (fun line => contains Encut.toten line = false) (readlines text) ->
  Encut.extract_energy_from_outcar text = Ok None
  /\ Encut.analyze_convergence values outcar = (log, Raise TypeError)
  /\ (forall missing : Z -> option str, missing encut = None ->
      forall acc,
        Encut.read_energies missing (encut :: after) acc
        = (print (Encut.OutcarNotFound encut);;
           Encut.read_energies missing after (acc ++ [nan]))).
Proof.
  intros -> Hread Hfile Hlines.
  assert (Hnone : Encut.extract_energy_from_outcar text = Ok None)
    by (apply extract_energy_no_marker, Hlines).
  split; [done|]. split.
  - unfold Encut.analyze_convergence.
    rewrite read_energies_app, Hread, py_bind_ok.
    cbn [Encut.read_energies]. rewrite Hfile, Hnone.
    cbn. by rewrite app_nil_r.
  - intros missing Hmissing acc. cbn [Encut.read_energies]. by rewrite Hmissing.
Qed.

(** The sweep of the script, with no OUTCAR for 200, an energy for 250 and an
    OUTCAR without the marker for 300. *)
Definition broken_outcar (encut : Z) : option str :=
  if (encut =? 250)%Z then Some (toten_line "-18.43120156")
  else if (encut =? 300)%Z then Some (s " General timing and accounting" ++ [ascii_of_N 10])
  else None.

Lemma encut_outcar_without_toten_witness :
  Encut.extract_energy_from_outcar (s " General timing and accounting" ++ [ascii_of_N 10])
  = Ok None
  /\ Encut.analyze_encut_convergence broken_outcar
     = ([Encut.OutcarNotFound 200; Encut.Energy 250 (-18.43120156)], Raise TypeError).
Proof.
  pose proof (encut_outcar_without_toten_raises Encut.encut_values
    [200; 250]%Z [350; 400; 450; 500; 550]%Z 300 broken_outcar
    (s " General timing and accounting" ++ [ascii_of_N 10])
    [Encut.OutcarNotFound 200; Encut.Energy 250 (-18.43120156)]
    [nan; -18.43120156]) as H.
  destruct H as [H1 [H2 _]].
  - reflexivity.
  - vm_compute. reflexivity.
  - reflexivity.
  - repeat constructor.
  - split; [exact H1 | exact H2].
Defined.

(** C5, as the code has it.  When the k-point sweep has one valid result
    at least, the differences are taken against the energy at the largest
    value, [ref].  When [ref] is a finite number the last difference is
    exactly zero, a convergence point is declared and the report that none
    was found is not printed.  When [ref] is a NaN or an infinity the last
    difference is a NaN, no convergence point is declared and the report
    that none was found is printed. *)
Theorem kpoints_converges_iff_reference_finite
    (found : list (option Z * option float)) (k0 : Z) (e0 : float) :
  (Some k0, Some e0) ∈ found ->
  exists log results kmax ref out,
    Kpoints.collect found ∅ = (log, Ok results)
    /\ results !! kmax = Some ref
    /\ (forall k, is_Some (results !! k) -> (k <= kmax)%Z)
    /\ last out = Some (Kpoints.Difference kmax (if is_finite ref then 0 else nan))
    /\ if is_finite ref
       then exists k, is_Some (results !! k)
                      /\ Kpoints.plot_kpoints_convergence found
                         = (log ++ out ++ [Kpoints.ConvergedAt k], Ok tt)
       else Kpoints.plot_kpoints_convergence found
            = (log ++ out ++ [Kpoints.NoConvergence], Ok tt).
Proof.
  intros Hvalid.
  destruct (collect_returns found ∅) as (log & results & Hcollect & _ & Hkept).
  destruct (largest_key results k0 (Hkept k0 e0 Hvalid)) as (kmax & ref & Href & Hmax).
  destruct (analyze_outcome results kmax ref Href Hmax) as [out [Hlast Hout]].
  exists log, results, kmax, ref, out.
  do 4 (split; [assumption|]).
  unfold Kpoints.plot_kpoints_convergence. rewrite Hcollect, py_bind_ok.
  case_decide as Hempty; [by rewrite Hempty, lookup_empty in Href|].
  destruct (is_finite ref).
  - destruct Hout as [k [Hk Hrun]]. exists k. split; [exact Hk|]. by rewrite Hrun.
  - by rewrite Hout.
Qed.

(** Three folders, read in the order 5, 3, 7. *)
Definition three_folders : list (option Z * option float) :=
  [(Some 5%Z, Some (-18.4)); (Some 3%Z, Some (-18.2)); (Some 7%Z, Some (-18.4004))].

Lemma kpoints_converges_witness :
  exists log results kmax ref out,
    Kpoints.collect three_folders ∅ = (log, Ok results)
    /\ results !! kmax = Some ref
    /\ (forall k, is_Some (results !! k) -> (k <= kmax)%Z)
    /\ last out = Some (Kpoints.Difference kmax (if is_finite ref then 0 else nan))
    /\ if is_finite ref
       then exists k, is_Some (results !! k)
                      /\ Kpoints.plot_kpoints_convergence three_folders
                         = (log ++ out ++ [Kpoints.ConvergedAt k], Ok tt)
       else Kpoints.plot_kpoints_convergence three_folders
            = (log ++ out ++ [Kpoints.NoConvergence], Ok tt).
Proof.
  apply (kpoints_converges_iff_reference_finite three_folders 5 (-18.4)).
  unfold three_folders. apply elem_of_cons. by left.
Defined.

(** The sweep over the three folders converges at 5. *)
Example kpoints_three_folders :
  Kpoints.plot_kpoints_convergence three_folders
  = ([Kpoints.Energy 5 (-18.4); Kpoints.Energy 3 (-18.2); Kpoints.Energy 7 (-18.4004);
      Kpoints.Difference 3 (abs (-18.2 - -18.4004));
      Kpoints.Difference 5 (abs (-18.4 - -18.4004));
      Kpoints.Difference 7 0; Kpoints.ConvergedAt 5], Ok tt).
Proof. vm_compute. reflexivity. Qed.

(** C5 fails when the energy at the largest value is a NaN: the folders 3
    and 5 give valid results, every difference is a NaN, and the sweep
    reports that no convergence point was found. *)
Lemma kpoints_nan_reference_reports_no_convergence :
  Kpoints.plot_kpoints_convergence [(Some 3%Z, Some (-18.2)); (Some 5%Z, Some nan)]
  = ([Kpoints.Energy 3 (-18.2); Kpoints.Energy 5 nan;
      Kpoints.Difference 3 nan; Kpoints.Difference 5 nan;
      Kpoints.NoConvergence], Ok tt).
Proof. vm_compute. reflexivity. Qed.


(** Five samples of three bands, and a label file that puts the K point on
    the first sample. *)
Definition five_samples : ndarray2 :=
  {| ncols := 4;
     rows := [[0.0; -1.0; 0.5; 3.0]; [0.5; -0.8; 0.0; 2.0]; [1.0; -0.7; 0.3; 2.5];
              [1.5; -0.9; 0.4; 2.6]; [2.0; -1.0; 0.5; 3.0]] |}.

Definition k_at (coord : string) : option str :=
  Some (s "G 1.1" ++ [ascii_of_N 10] ++ s "K " ++ s coord ++ [ascii_of_N 10]).


(** With the K point on the first sample the window is clipped on the
    left: it holds the five samples. *)
Example dirac_window_first_sample :
  exists log c,
    Dirac.analyze_dirac_cone five_samples (k_at "0.0") = (log, Ok c)
    /\ Dirac.nearest c = 0%nat
    /\ Dirac.k_window c = [0.0; 0.5; 1.0; 1.5; 2.0].
Proof. eexists _, _. split; [vm_compute; reflexivity|]. by split. Qed.



(** In the five samples the second band is 0.0 at the sample nearest to
    0.6, and comes first. *)
Example dirac_bands_second_band :
  exists log c,
    Dirac.analyze_dirac_cone five_samples (k_at "0.6") = (log, Ok c)
    /\ Dirac.nearest c = 1%nat
    /\ Dirac.bands c = [1; 0]%nat.
Proof. eexists _, _. split; [vm_compute; reflexivity|]. by split. Qed.


(** The label file of C3: a header and three labelled points. *)
Definition newline : str := [ascii_of_N 10].

Definition label_file : str :=
  s "K-Label Coordinate" ++ newline ++ s "Gamma 0.0" ++ newline
  ++ s "K 1.5" ++ newline ++ s "M 2.0" ++ newline.

(** C3.  For the label file with the header [K-Label Coordinate] and the
    lines [Gamma 0.0], [K 1.5] and [M 2.0], [read_klabels] passes over the
    header, which holds a marker, and returns the coordinates 0.0, 1.5 and
    2.0 and the labels Gamma, K and M, in the order of the file.  For every
    file it returns what the lines after the header add, line by line: the
    first word without backslashes as the label and the last word as the
    coordinate. *)
Theorem read_klabels_header_and_three_points :
  Dirac.is_header (s "K-Label Coordinate" ++ newline) = true
  /\ after_header (readlines label_file)
     = [s "Gamma 0.0" ++ newline; s "K 1.5" ++ newline; s "M 2.0" ++ newline]
  /\ Dirac.read_klabels (Some label_file)
     = ([], Ok ([0; 1.5; 2], [s "Gamma"; s "K"; s "M"]))
  /\ entry (backslash :: s "Gamma 0.5 0.0 7.25" ++ newline) = Some (7.25, s "Gamma")
  /\ forall text,
       Dirac.read_klabels (Some text)
       = ([], Ok (fold_left add_entry (map entry (after_header (readlines text))) ([], []))).
Proof.
  split; [reflexivity|]. split; [reflexivity|]. split; [vm_compute; reflexivity|].
  split; [vm_compute; reflexivity|]. exact read_klabels_entries.
Qed.

(** C6.  A line of the label file whose last word is not a number adds
    neither a label nor a coordinate, and raises nothing: the turn of the
    loop leaves the lists as they were, the loop and [read_klabels] return
    what they return without the line, and [read_klabels] returns for every
    file. *)
Theorem read_klabels_skips_bad_coordinate (line q : str) :
  last (split line) = Some q ->
  parse_float q = None ->
  (forall st, Dirac.klabels_line st line = Ok st)
  /\ (forall st before after,
        Dirac.klabels_lines st (before ++ line :: after)
        = Dirac.klabels_lines st (before ++ after))
  /\ (forall text text' l0 before after,
        readlines text = l0 :: before ++ line :: after ->
        readlines text' = l0 :: before ++ after ->
        Dirac.read_klabels (Some text) = Dirac.read_klabels (Some text'))
  /\ (forall file, returns (Dirac.read_klabels file)).
Proof.
  intros Hlast Hq.
  pose proof (entry_bad_coordinate line q Hlast Hq) as Hentry.
  split; [|split; [|split]].
  - intros st. by rewrite klabels_line_entry, Hentry.
  - intros st before after. rewrite !klabels_lines_entries.
    by rewrite !map_app, !fold_left_app, map_cons, Hentry.
  - intros text text' l0 before after Htext Htext'.
    rewrite !read_klabels_entries, Htext, Htext'. unfold after_header.
    destruct (Dirac.is_header l0).
    + by rewrite !map_app, !fold_left_app, map_cons, Hentry.
    + rewrite !(map_cons entry l0). cbn [fold_left].
      by rewrite !map_app, !fold_left_app, map_cons, Hentry.
  - intros [text|]; [rewrite read_klabels_entries|]; by eexists.
Qed.

Lemma read_klabels_skips_witness :
  Dirac.klabels_line ([0], [s "G"]) (s "K abc" ++ newline) = Ok ([0], [s "G"])
  /\ Dirac.read_klabels
       (Some (s "G 0.0" ++ newline ++ s "K abc" ++ newline ++ s "M 2.0" ++ newline))
     = ([], Ok ([0; 2], [s "G"; s "M"])).
Proof.
  destruct (read_klabels_skips_bad_coordinate (s "K abc" ++ newline) (s "abc")
              eq_refl eq_refl) as (Hline & _ & Hfile & _).
  split; [apply Hline|].
  eapply eq_trans;
    [exact (Hfile (s "G 0.0" ++ newline ++ s "K abc" ++ newline ++ s "M 2.0" ++ newline)
              (s "G 0.0" ++ newline ++ s "M 2.0" ++ newline)
              (s "G 0.0" ++ newline) [] [s "M 2.0" ++ newline] eq_refl eq_refl)|].
  vm_compute. reflexivity.
Defined.







(** The four ways of C8, each on a file. *)
Example fermi_direct :
  Dos.extract_fermi_energy (Some (s "  -2.3456" ++ newline)) = ([], Ok (-2.3456)).
Proof. vm_compute. reflexivity. Qed.

Example fermi_first_match :
  Dos.extract_fermi_energy (Some (s "E-fermi : -2.3456 eV, 12 bands" ++ newline))
  = ([], Ok (-2.3456)).
Proof. vm_compute. reflexivity. Qed.

Example fermi_last_line :
  Dos.extract_fermi_energy (Some (s "Fermi level" ++ newline ++ s "inf" ++ newline))
  = ([], Ok infinity).
Proof. vm_compute. reflexivity. Qed.

Example fermi_default :
  Dos.extract_fermi_energy (Some (s "not available"))
  = ([Dos.FermiUnreadable (s "not available")], Ok 0).
Proof. vm_compute. reflexivity. Qed.

End Claims.

(** * Further properties of the scripts

    ** The label file and the target position (BAND/Dirac.py) *)

Module KlabelsMore.
Import Dirac PyFacts SeqFacts KlabelsFacts DiracFacts.
Local Open Scope float_scope.

Lemma replace_removes c x : c ∉ replace c [] x.
Proof.
  induction x as [|d x IH]; simpl; [apply not_elem_of_nil|].
  destruct (Ascii.eqb d c) eqn:Hd; [exact IH|].
  apply not_elem_of_cons. split; [|exact IH].
  intros ->. by rewrite Ascii.eqb_refl in Hd.
Qed.

Lemma entry_label_plain line coord label :
  entry line = Some (coord, label) -> backslash ∉ label.
Proof.
  unfold entry. destruct (strip line); [done|].
  destruct (split line) as [|first [|second rest]]; try done.
  destruct (last _) as [q|]; [|done].
  destruct (parse_float q); [|done].
  intros [= _ <-]. apply replace_removes.
Qed.

Lemma fold_add_entry_plain entries : forall st : klabels,
  Forall (fun e => forall coord label, e = Some (coord, label) -> backslash ∉ label) entries ->
  Forall (fun label => backslash ∉ label) st.2 ->
  Forall (fun label => backslash ∉ label) (fold_left add_entry entries st).2.
Proof.
  induction entries as [|e entries IH]; intros st He Hst; [done|].
  inversion He as [|? ? He1 He2]; subst. simpl. apply IH; [done|].
  destruct e as [[coord label]|]; simpl; [|done].
  apply Forall_app. split; [done|]. constructor; [by eapply He1|constructor].
Qed.

Lemma lower_char_backslash c : lower_char c = backslash -> c = backslash.
Proof.
  destruct c as [[] [] [] [] [] [] [] []]; intros H; try discriminate H; reflexivity.
Qed.

Lemma find_k_spec labels : forall i,
  match find_k i labels with
  | Some j =>
      (i <= j)%nat
      /\ (forall n l, (n < j - i)%nat -> labels !! n = Some l -> lower l ∉ k_names)
      /\ exists l, labels !! (j - i)%nat = Some l /\ lower l ∈ k_names
  | None => forall l, l ∈ labels -> lower l ∉ k_names
  end.
Proof.
  induction labels as [|label labels IH]; intros i; simpl.
  - intros l Hl. by apply elem_of_nil in Hl.
  - case_bool_decide as Hk.
    + split; [lia|]. rewrite Nat.sub_diag. split; [intros n l Hn; lia|].
      exists label. by split.
    + specialize (IH (S i)). destruct (find_k (S i) labels) as [j|].
      * destruct IH as (Hle & Hbefore & l & Hl & Hin).
        split; [lia|]. replace (j - i)%nat with (S (j - S i)) by lia. split.
        -- intros [|n] l' Hn; simpl; [by intros [= <-]|].
           apply Hbefore. lia.
        -- exists l. by split.
      * intros l Hl. apply elem_of_cons in Hl as [->|Hl]; [done|by apply IH].
Qed.

End KlabelsMore.

Section MoreOfDirac.
Import PyFacts SeqFacts KlabelsFacts DiracFacts KlabelsMore.
Local Open Scope float_scope.

(** X1.  [read_klabels] returns for every file, missing ones included, and
    its two lists have the same length: the coordinate at an index belongs
    to the label at that index. *)
Theorem read_klabels_lists_aligned (file : option str) :
  exists out sym_points labels,
    Dirac.read_klabels file = (out, Ok (sym_points, labels))
    /\ length sym_points = length labels.
Proof.
  destruct (read_klabels_returns file) as (out & [sym_points labels] & Hread & Hlen).
  by exists out, sym_points, labels.
Qed.

(** X2.  No label that [read_klabels] returns holds a backslash, so that no
    label is the name [k\] that [analyze_dirac_cone] looks for, in any
    case of its letters. *)
Theorem read_klabels_labels_without_backslash (file : option str) :
  exists out sym_points labels,
    Dirac.read_klabels file = (out, Ok (sym_points, labels))
    /\ Forall (fun label => (backslash ∉ label)
                            /\ lower label <> (s "k" ++ [backslash])) labels.
Proof.
  assert (Hplain : exists out sym_points labels,
            Dirac.read_klabels file = (out, Ok (sym_points, labels))
            /\ Forall (fun label => backslash ∉ label) labels).
  { destruct file as [text|].
    - rewrite read_klabels_entries.
      destruct (fold_left add_entry _ _) as [sym_points labels] eqn:Hfold.
      exists [], sym_points, labels. split; [done|].
      change labels with (sym_points, labels).2. rewrite <- Hfold.
      apply fold_add_entry_plain; [|constructor].
      apply Forall_forall. intros e He coord label ->.
      apply list_elem_of_fmap in He as (line & He & _).
      by eapply entry_label_plain.
    - exists [Dirac.KlabelsMissing], [], []. split; [done|constructor]. }
  destruct Hplain as (out & sym_points & labels & Hread & Hlabels).
  exists out, sym_points, labels. split; [exact Hread|].
  eapply Forall_impl; [exact Hlabels|]. intros label Hlabel. split; [exact Hlabel|].
  intros Hlow. apply Hlabel.
  destruct label as [|a [|b [|c label]]]; try discriminate Hlow.
  injection Hlow as _ Hb. apply lower_char_backslash in Hb as ->.
  apply elem_of_cons. right. apply elem_of_cons. by left.
Qed.

(** X3.  When labels were read, the target position is the coordinate of
    the first label that is [k], [k$], [k1] or [k2] in any case of its
    letters; when no label is, a warning is printed and the position is the
    coordinate in the middle of the list, at index [len // 2].  Neither case
    raises when the lists have the same length. *)
Theorem k_position_of_first_k_label
    (k_points sym_points : list float) (labels : list str) :
  sym_points <> [] ->
  length sym_points = length labels ->
  match Dirac.find_k 0 labels with
  | Some i =>
      (forall n l, (n < i)%nat -> labels !! n = Some l -> lower l ∉ Dirac.k_names)
      /\ (exists l, labels !! i = Some l /\ lower l ∈ Dirac.k_names)
      /\ exists p, sym_points !! i = Some p
           /\ Dirac.k_position k_points (sym_points, labels) = ([], Ok p)
  | None =>
      (forall l, l ∈ labels -> lower l ∉ Dirac.k_names)
      /\ exists p, sym_points !! (length sym_points / 2)%nat = Some p
           /\ Dirac.k_position k_points (sym_points, labels)
              = ([Dirac.NoKLabel], Ok p)
  end.
Proof.
  intros Hne Hlen.
  pose proof (find_k_spec labels 0) as Hspec.
  unfold Dirac.k_position.
  destruct sym_points as [|p0 sym_points]; [done|].
  destruct (Dirac.find_k 0 labels) as [i|] eqn:Hfind.
  - destruct Hspec as (_ & Hbefore & Hat). rewrite Nat.sub_0_r in Hbefore, Hat.
    split; [exact Hbefore|]. split; [exact Hat|].
    apply find_k_lt in Hfind.
    destruct (lookup_lt_is_Some_2 (p0 :: sym_points) i) as [p Hp]; [lia|].
    exists p. split; [exact Hp|].
    by rewrite py_ret_bind, (index_nat _ _ _ Hp).
  - split; [exact Hspec|].
    destruct (lookup_lt_is_Some_2 (p0 :: sym_points) (length (p0 :: sym_points) / 2))
      as [p Hp]; [apply Nat.div_lt; simpl; lia|].
    exists p. split; [exact Hp|].
    by rewrite py_bind_assoc, py_print_bind, py_ret_bind, (index_nat _ _ _ Hp).
Qed.

Lemma k_position_witness :
  Dirac.k_position [] ([0.0; 1.5; 2.0], [s "Gamma"; s "K1"; s "k"]) = ([], Ok 1.5)
  /\ Dirac.k_position [] ([0.0; 1.5; 2.0], [s "Gamma"; s "M"; s "L"])
     = ([Dirac.NoKLabel], Ok 1.5).
Proof.
  pose proof (k_position_of_first_k_label [] [0.0; 1.5; 2.0]
                [s "Gamma"; s "K1"; s "k"]) as H1.
  pose proof (k_position_of_first_k_label [] [0.0; 1.5; 2.0]
                [s "Gamma"; s "M"; s "L"]) as H2.
  split.
  - destruct H1 as (_ & _ & p & Hp & Hrun); [done|done|].
    injection Hp as <-. exact Hrun.
  - destruct H2 as (_ & p & Hp & Hrun); [done|done|].
    injection Hp as <-. exact Hrun.
Defined.

End MoreOfDirac.

(** ** Floats, further *)

Module FloatMore.
Import FloatFacts.
Local Open Scope float_scope.

Lemma isnan_spec x : isnan x = sf_isnan (Prim2SF x).
Proof.
  unfold isnan. rewrite FloatAxioms.eqb_spec, SFeqb_refl. by destruct (sf_isnan _).
Qed.


Lemma ltb_np_lt a b : isnan b = false -> (a <? b) = np_lt a b.
Proof.
  unfold np_lt, isnan. intros Hb. apply negb_false_iff in Hb. rewrite Hb.
  simpl. by rewrite orb_false_r.
Qed.

Lemma leb_np_lt a b :
  isnan a = false -> isnan b = false -> (a <=? b) = negb (np_lt b a).
Proof.
  rewrite !isnan_spec, np_lt_spec, FloatAxioms.leb_spec.
  unfold sf_lt. rewrite !SFeqb_refl. unfold SFleb, SFltb, SFcompare.
  destruct (Prim2SF a) as [[]|[]| |[] m1 e1], (Prim2SF b) as [[]|[]| |[] m2 e2];
    simpl; try done; intros _ _;
    change (PosDef.Pos.compare_cont Eq m1 m2) with (Pos.compare m1 m2);
    change (PosDef.Pos.compare_cont Eq m2 m1) with (Pos.compare m2 m1);
    rewrite (Z.compare_antisym e1 e2), (Pos.compare_antisym m1 m2);
    destruct (e1 ?= e2)%Z; simpl; try done; by destruct (m1 ?= m2)%positive.
Qed.

(** A comparison with a NaN fails. *)
Lemma leb_nan_r a b : isnan b = true -> (a <=? b) = false.
Proof.
  rewrite isnan_spec, FloatAxioms.leb_spec. unfold SFleb, SFcompare.
  destruct (Prim2SF b); try done. by destruct (Prim2SF a).
Qed.

Lemma abs_isnan x : isnan (abs x) = isnan x.
Proof. rewrite !isnan_spec, abs_spec. by destruct (Prim2SF x). Qed.

Lemma sub_isnan_l x y : isnan x = true -> isnan (x - y) = true.
Proof.
  rewrite !isnan_spec, sub_spec. by destruct (Prim2SF x).
Qed.

Lemma sub_isnan_r x y : isnan y = true -> isnan (x - y) = true.
Proof.
  rewrite !isnan_spec, sub_spec.
  destruct (Prim2SF y); try done. by destruct (Prim2SF x) as [[]|[]| |].
Qed.

Lemma ltb_nan_l x t : isnan x = true -> (x <? t) = false.
Proof.
  rewrite isnan_spec, FloatAxioms.ltb_spec. unfold SFltb, SFcompare.
  by destruct (Prim2SF x).
Qed.

(** A difference below a bound is a difference of two numbers. *)
Lemma small_difference_of_numbers x y t :
  (abs (x - y) <? t) = true -> isnan x = false /\ isnan y = false.
Proof.
  intros H. split.
  - destruct (isnan x) eqn:Hx; [|done].
    by rewrite ltb_nan_l in H by (by rewrite abs_isnan, sub_isnan_l).
  - destruct (isnan y) eqn:Hy; [|done].
    by rewrite ltb_nan_l in H by (by rewrite abs_isnan, sub_isnan_r).
Qed.

End FloatMore.

(** ** The nearest sample: [np.argmin] *)

Module ArgminFacts.
Import FloatFacts FloatMore.
Local Open Scope float_scope.



End ArgminFacts.

Module ArgminNan.
Import FloatFacts FloatMore.
Local Open Scope float_scope.



End ArgminNan.

Section MoreOfDiracCone.
Import PyFacts SeqFacts FloatFacts FloatMore NpFacts KlabelsFacts DiracFacts.
Import ArgminFacts ArgminNan.
Local Open Scope float_scope.






(** Two samples of three bands; the first band is NaN at the second sample. *)
Definition samples_with_nan : ndarray2 :=
  {| ncols := 4; rows := [[0.0; -1.0; 0.5; 3.0]; [0.5; nan; 0.2; 2.0]] |}.


Example nan_band_not_selected :
  exists log c,
    Dirac.analyze_dirac_cone samples_with_nan (k_at "0.6") = (log, Ok c)
    /\ Dirac.nearest c = 1%nat /\ Dirac.bands c = [1; 2]%nat.
Proof. eexists _, _. split; [vm_compute; reflexivity|]. by split. Qed.

End MoreOfDiracCone.

(** ** The cutoff sweep, further (Optimization_ENCUT/ENCUT_TEST.py) *)

Module EncutMore.
Import Encut PyFacts SeqFacts FloatFacts FloatMore EncutFacts.
Local Open Scope float_scope.

Lemma extract_first_marker before line after :
  Forall (fun l => contains toten l = false) before ->
  contains toten line = true ->
  extract_energy_from_lines (before ++ line :: after)
  = extract_energy_from_lines [line].
Proof.
  intros Hbefore Hline. induction Hbefore as [|l before Hl _ IH]; simpl.
  - by rewrite Hline.
  - by rewrite Hl.
Qed.

Lemma extract_marker_line line :
  contains toten line = true ->
  extract_energy_from_lines [line]
  = match split line !! 4%nat with
    | Some w =>
        match parse_float w with
        | Some e => Ok (Some e)
        | None => Raise ValueError
        end
    | None => Raise IndexError
    end.
Proof.
  intros Hline. simpl. rewrite Hline.
  destruct (split line !! 4%nat) as [w|] eqn:Hw.
  - pose proof (index_nat _ _ _ Hw) as Hi. change (Z.of_nat 4) with 4%Z in Hi.
    rewrite Hi. unfold mbind, res_bind, float_of_str. by destruct (parse_float w).
  - unfold index. apply lookup_ge_None in Hw.
    change (4 <? 0)%Z with false. cbv iota.
    destruct (Z.ltb_spec 4 (Z.of_nat (length (split line)))); [lia|].
    by rewrite andb_false_r.
Qed.

Lemma convergence_index_inv ds : forall n j,
  convergence_index n ds = Some j ->
  exists i d,
    j = S (n + i) /\ ds !! i = Some d /\ (d <? 0.001) = true
    /\ forall i' d', (i' < i)%nat -> ds !! i' = Some d' -> (d' <? 0.001) = false.
Proof.
  induction ds as [|d0 ds IH]; intros n j; simpl; [done|].
  destruct (d0 <? 0.001) eqn:Hd0.
  - intros [= <-]. exists 0%nat, d0. split; [lia|]. split; [done|]. split; [done|].
    intros i' d' Hi'. lia.
  - intros Hj. destruct (IH _ _ Hj) as (i & d & -> & Hd & Hlt & Hbefore).
    exists (S i), d. split; [lia|]. split; [done|]. split; [done|].
    intros [|i'] d' Hi'; simpl; [by intros [= <-]|]. apply Hbefore. lia.
Qed.

Lemma diff_lookup_inv a : forall i d,
  diff a !! i = Some d ->
  exists x y, a !! i = Some x /\ a !! S i = Some y /\ d = y - x.
Proof.
  induction a as [|x0 [|y0 a'] IH]; intros i d; try done.
  destruct i as [|i]; cbn [diff lookup list_lookup].
  - intros [= <-]. by exists x0, y0.
  - intros Hd. by apply IH in Hd.
Qed.

(** The energies read for the values, when every file that exists holds an
    energy: a NaN for a missing file. *)
Definition energy_read (outcar : Z -> option str) (v : Z) : float :=
  match outcar v with
  | Some text =>
      match extract_energy_from_outcar text with
      | Ok (Some e) => e
      | _ => nan
      end
  | None => nan
  end.

Lemma read_energies_all outcar values : forall acc,
  (forall v text, v ∈ values -> outcar v = Some text ->
     exists e, extract_energy_from_outcar text = Ok (Some e)) ->
  exists log,
    read_energies outcar values acc
    = (log, Ok (acc ++ map (energy_read outcar) values)).
Proof.
  induction values as [|v values IH]; intros acc Hok.
  - exists []. simpl. by rewrite app_nil_r.
  - destruct (IH (acc ++ [energy_read outcar v])) as [log Hlog].
    { intros v' text Hv'. apply Hok. by apply elem_of_cons; right. }
    cbn [read_energies map]. unfold energy_read at 1 in Hlog. unfold energy_read at 2.
    destruct (outcar v) as [text|] eqn:Hfile.
    + destruct (Hok v text) as [e He]; [by apply elem_of_cons; left|done|].
      rewrite He in *. rewrite py_lift_bind. cbn [format_energy].
      rewrite py_lift_bind, py_print_bind, Hlog. cbn [printed outcome fst snd].
      rewrite <- app_assoc. by eexists.
    + rewrite py_print_bind, Hlog. cbn [printed outcome fst snd].
      rewrite <- app_assoc. by eexists.
Qed.

End EncutMore.

Section MoreOfEncut.
Import PyFacts SeqFacts FloatFacts FloatMore EncutFacts EncutMore.
Local Open Scope float_scope.

(** X7.  [extract_energy_from_outcar] reads the energy off the first line
    that holds the marker: the lines after it, later lines with the marker
    included, do not count. *)
Theorem encut_first_toten_line_decides
    (text : str) (before after : list str) (line w : str) (e : float) :
  readlines text = before ++ line :: after ->
  Forall (fun l => contains Encut.toten l = false) before ->
  contains Encut.toten line = true ->
  split line !! 4%nat = Some w ->
  parse_float w = Some e ->
  Encut.extract_energy_from_outcar text = Ok (Some e).
Proof.
  intros Hlines Hbefore Hline Hw He.
  unfold Encut.extract_energy_from_outcar.
  by rewrite Hlines, extract_first_marker, extract_marker_line, Hw, He.
Qed.

(** Two ionic steps: the energy of the first is read. *)
Definition two_steps : str :=
  s " step 1" ++ newline ++ toten_line "-18.40" ++ s " step 2" ++ newline
  ++ toten_line "-18.43".

Lemma encut_first_toten_witness :
  Encut.extract_energy_from_outcar two_steps = Ok (Some (-18.40)).
Proof.
  apply (encut_first_toten_line_decides two_steps [s " step 1" ++ newline]
           [s " step 2" ++ newline; toten_line "-18.43"] (toten_line "-18.40")
           (s "-18.40")); reflexivity || (by repeat constructor).
Defined.

(** X8.  When the first line with the marker has fewer than five words the
    extraction raises [IndexError], and when its fifth word is not a number
    it raises [ValueError]; the sweep does not catch either, and ends there
    without a result. *)
Theorem encut_malformed_toten_line_ends_sweep
    (values before after : list Z) (encut : Z) (outcar : Z -> option str)
    (text : str) (log : list Encut.msg) (energies : list float)
    (pre post : list str) (line : str) :
  values = before ++ encut :: after ->
  Encut.read_energies outcar before [] = (log, Ok energies) ->
  outcar encut = Some text ->
  readlines text = pre ++ line :: post ->
  Forall (fun l => contains Encut.toten l = false) pre ->
  contains Encut.toten line = true ->
  ((length (split line) <= 4)%nat ->
     Encut.extract_energy_from_outcar text = Raise IndexError
     /\ Encut.analyze_convergence values outcar = (log, Raise IndexError))
  /\ (forall w, split line !! 4%nat = Some w -> parse_float w = None ->
        Encut.extract_energy_from_outcar text = Raise ValueError
        /\ Encut.analyze_convergence values outcar = (log, Raise ValueError)).
Proof.
  intros -> Hread Hfile Hlines Hpre Hline.
  assert (Hx : Encut.extract_energy_from_outcar text
               = match split line !! 4%nat with
                 | Some w => match parse_float w with
                             | Some e => Ok (Some e)
                             | None => Raise ValueError
                             end
                 | None => Raise IndexError
                 end).
  { unfold Encut.extract_energy_from_outcar.
    by rewrite Hlines, extract_first_marker, extract_marker_line. }
  assert (Hrun : forall err, Encut.extract_energy_from_outcar text = Raise err ->
            Encut.analyze_convergence (before ++ encut :: after) outcar
            = (log, Raise err)).
  { intros err Herr. unfold Encut.analyze_convergence.
    rewrite read_energies_app, Hread, py_bind_ok.
    cbn [Encut.read_energies]. rewrite Hfile, Herr. cbn. by rewrite app_nil_r. }
  split.
  - intros Hshort. rewrite (lookup_ge_None_2 (split line) 4) in Hx by lia. auto.
  - intros w Hw Hbad. rewrite Hw, Hbad in Hx. auto.
Qed.

(** An OUTCAR whose energy overflowed its field. *)
Definition overflowed_outcar (encut : Z) : option str :=
  if (encut =? 200)%Z then Some (toten_line "**********") else None.

Lemma encut_malformed_witness :
  Encut.analyze_encut_convergence overflowed_outcar = ([], Raise ValueError).
Proof.
  pose proof (encut_malformed_toten_line_ends_sweep Encut.encut_values []
                [250; 300; 350; 400; 450; 500; 550]%Z 200 overflowed_outcar
                (toten_line "**********") [] [] [] [] (toten_line "**********")
                eq_refl eq_refl eq_refl eq_refl (Forall_nil_2 _) eq_refl)
    as [_ Hvalue].
  by destruct (Hvalue (s "**********") eq_refl eq_refl).
Defined.

(** X9.  When every OUTCAR that exists holds an energy, the sweep returns
    the values with as many energies, a NaN standing for each missing file
    and the extracted energy for each file that exists; the value printed
    for the convergence is then always one of the values. *)
Theorem encut_sweep_returns_aligned_energies
    (values : list Z) (outcar : Z -> option str) :
  (forall v text, v ∈ values -> outcar v = Some text ->
     exists e, Encut.extract_energy_from_outcar text = Ok (Some e)) ->
  exists log energies,
    Encut.analyze_convergence values outcar = (log, Ok (values, energies))
    /\ length energies = length values
    /\ (forall i v, values !! i = Some v -> outcar v = None ->
          energies !! i = Some nan)
    /\ (forall i v text, values !! i = Some v -> outcar v = Some text ->
          exists e, energies !! i = Some e
                    /\ Encut.extract_energy_from_outcar text = Ok (Some e))
    /\ (forall v, Encut.Converged v ∈ log -> v ∈ values).
Proof.
  intros Hok.
  destruct (read_energies_all outcar values [] Hok) as [log0 Hread].
  simpl in Hread. set (energies := map (energy_read outcar) values) in *.
  assert (Hlen : length energies = length values) by (unfold energies; by rewrite length_map).
  assert (Hmark : exists out, Encut.mark_convergence values energies = (out, Ok tt)
            /\ forall v, Encut.Converged v ∈ out -> v ∈ values).
  { unfold Encut.mark_convergence. case_decide as Hn.
    - destruct (Encut.convergence_index 0 (map abs (diff energies))) as [j|] eqn:Hj.
      + destruct (convergence_index_inv _ _ _ Hj) as (i & d & -> & Hd & _).
        apply lookup_lt_Some in Hd. rewrite length_map, diff_length in Hd.
        destruct (lookup_lt_is_Some_2 values (S (0 + i))) as [v Hv]; [lia|].
        rewrite (index_nat _ _ _ Hv), py_lift_bind.
        eexists. split; [reflexivity|].
        intros v' Hv'. apply list_elem_of_singleton in Hv'. injection Hv' as ->.
        by eapply list_elem_of_lookup_2.
      + eexists. split; [reflexivity|].
        intros v' Hv'. by apply list_elem_of_singleton in Hv'.
    - eexists. split; [reflexivity|]. intros v' Hv'. by apply elem_of_nil in Hv'. }
  destruct Hmark as (out & Hmark & Hconv).
  exists (log0 ++ out), energies. split.
  { unfold Encut.analyze_convergence.
    rewrite Hread, py_bind_ok, Hmark. cbn. by rewrite app_nil_r. }
  split; [exact Hlen|]. split; [|split].
  - intros i v Hv Hnone. unfold energies.
    change (map (energy_read outcar) values) with (energy_read outcar <$> values).
    rewrite list_lookup_fmap, Hv. simpl. unfold energy_read. by rewrite Hnone.
  - intros i v text Hv Hfile.
    destruct (Hok v text (list_elem_of_lookup_2 _ _ _ Hv) Hfile) as [e He].
    exists e. split; [|exact He]. unfold energies.
    change (map (energy_read outcar) values) with (energy_read outcar <$> values).
    rewrite list_lookup_fmap, Hv. simpl. unfold energy_read. by rewrite Hfile, He.
  - intros v Hv. apply elem_of_app in Hv as [Hv|Hv]; [|by apply Hconv].
    exfalso. clear -Hv Hread.
    assert (Hgen : forall values acc log energies,
              Encut.read_energies outcar values acc = (log, Ok energies) ->
              Encut.Converged v ∉ log).
    { clear. induction values as [|v0 values IH]; intros acc log energies.
      - intros [= <- _]. apply not_elem_of_nil.
      - cbn [Encut.read_energies]. destruct (outcar v0) as [text|].
        + intros H. apply py_bind_inv in H as (o1 & energy & o1' & H1 & H & ->).
          apply lift_inv in H1 as [_ ->].
          apply py_bind_inv in H as (o2 & e & o2' & H2 & H & ->).
          apply lift_inv in H2 as [_ ->].
          apply py_bind_inv in H as (o3 & [] & o3' & H3 & H & ->).
          injection H3 as <-. apply IH in H. simpl.
          apply not_elem_of_cons. by split.
        + intros H. apply py_bind_inv in H as (o3 & [] & o3' & H3 & H & ->).
          injection H3 as <-. apply IH in H. simpl.
          apply not_elem_of_cons. by split. }
    by apply (Hgen _ _ _ _ Hread).
Qed.

Lemma encut_sweep_returns_witness :
  exists log energies,
    Encut.analyze_convergence sweep_values sweep_outcar = (log, Ok (sweep_values, energies))
    /\ length energies = length sweep_values.
Proof.
  destruct (encut_sweep_returns_aligned_energies sweep_values sweep_outcar)
    as (log & energies & Hrun & Hlen & _).
  - intros v text Hv. unfold sweep_values in Hv.
    repeat (apply elem_of_cons in Hv as [->|Hv]);
      [| | |by apply elem_of_nil in Hv]; intros [= <-]; by eexists.
  - by exists log, energies.
Defined.

(** X10.  When the sweep declares the convergence at a value, the energy at
    that value and the energy at the value before it are both numbers,
    their difference being below 0.001: a missing OUTCAR, which gives a NaN,
    never takes part in a convergence, and the convergence is never declared
    at the first value. *)
Theorem encut_convergence_needs_two_energies
    (values : list Z) (energies : list float) (v : Z) :
  Encut.Converged v ∈ printed (Encut.mark_convergence values energies) ->
  exists i e1 e2,
    energies !! i = Some e1 /\ energies !! S i = Some e2
    /\ values !! S i = Some v
    /\ isnan e1 = false /\ isnan e2 = false
    /\ (abs (e2 - e1) <? 0.001) = true.
Proof.
  unfold Encut.mark_convergence. case_decide as Hn;
    [|intros H; by apply elem_of_nil in H].
  destruct (Encut.convergence_index 0 (map abs (diff energies))) as [j|] eqn:Hj.
  - destruct (convergence_index_inv _ _ _ Hj) as (i & d & -> & Hd & Hlt & _).
    change (map abs (diff energies)) with (abs <$> diff energies) in Hd.
    rewrite list_lookup_fmap in Hd.
    destruct (diff energies !! i) as [d0|] eqn:Hd0; [|done].
    injection Hd as <-.
    destruct (diff_lookup_inv _ _ _ Hd0) as (e1 & e2 & H1 & H2 & ->).
    destruct (index values (Z.of_nat (S (0 + i)))) as [v'|err] eqn:Hv;
      [|intros H; by apply elem_of_nil in H].
    rewrite py_lift_bind. intros H. apply list_elem_of_singleton in H.
    injection H as ->. apply index_nat_inv in Hv.
    destruct (small_difference_of_numbers e2 e1 _ Hlt) as [Hn2 Hn1].
    by exists i, e1, e2.
  - intros H. apply list_elem_of_singleton in H. done.
Qed.

Lemma encut_convergence_needs_witness :
  exists i e1 e2,
    [-10.000; -10.0005; -10.0006] !! i = Some e1
    /\ [-10.000; -10.0005; -10.0006] !! S i = Some e2
    /\ sweep_values !! S i = Some 250%Z
    /\ isnan e1 = false /\ isnan e2 = false
    /\ (abs (e2 - e1) <? 0.001) = true.
Proof.
  apply (encut_convergence_needs_two_energies sweep_values
           [-10.000; -10.0005; -10.0006] 250).
  vm_compute. constructor.
Defined.

End MoreOfEncut.

(** ** The k-point sweep, further (Optimization_KPOINTS/KPOINTS_TEST.py) *)

Module KpointsMore.
Import Kpoints PyFacts SeqFacts FloatFacts KpointsFacts.
Local Open Scope float_scope.

Lemma scan_first ks : forall i diffs j k d,
  ks !! j = Some k -> diffs !! (i + j)%nat = Some d -> (d <? threshold) = true ->
  (forall j' d', (j' < j)%nat -> diffs !! (i + j')%nat = Some d' ->
     (d' <? threshold) = false) ->
  (forall j', (j' < length ks)%nat -> is_Some (diffs !! (i + j')%nat)) ->
  scan i ks diffs = ([ConvergedAt k], Ok (Some k)).
Proof.
  induction ks as [|k0 ks IH]; intros i diffs j k d Hk Hd Hlt Hbefore Hall; [done|].
  destruct (Hall 0%nat) as [d0 Hd0]; [simpl; lia|]. rewrite Nat.add_0_r in Hd0.
  cbn [scan]. rewrite (index_nat _ _ _ Hd0), py_lift_bind.
  destruct j as [|j].
  - rewrite Nat.add_0_r in Hd. simpl in Hk. simplify_eq. by rewrite Hlt.
  - rewrite (Hbefore 0%nat d0) by (lia || by rewrite Nat.add_0_r).
    apply (IH (S i) diffs j k d); [done| |done| |].
    + by replace (S i + j)%nat with (i + S j)%nat by lia.
    + intros j' d' Hj' Hd'. apply (Hbefore (S j')); [lia|].
      by replace (i + S j')%nat with (S i + j')%nat by lia.
    + intros j' Hj'. replace (S i + j')%nat with (i + S j')%nat by lia.
      apply Hall. simpl. lia.
Qed.

Lemma sorted_keys_NoDup (results : gmap Z float) : NoDup (sorted_keys results).
Proof.
  unfold sorted_keys. rewrite merge_sort_Permutation. apply NoDup_fst_map_to_list.
Qed.

(** Before a key in the sorted keys come the smaller keys. *)
Lemma sorted_keys_before (results : gmap Z float) j j' k k' :
  sorted_keys results !! j = Some k -> sorted_keys results !! j' = Some k' ->
  (j' < j)%nat -> (k' < k)%Z.
Proof.
  intros Hj Hj' Hlt.
  pose proof (StronglySorted_merge_sort Z.le (map_to_list results).*1) as Hsorted.
  fold (sorted_keys results) in Hsorted.
  pose proof (sorted_keys_NoDup results) as Hnd.
  assert (Hle : (k' <= k)%Z).
  { rewrite <- (take_drop j (sorted_keys results)) in Hsorted.
    eapply (StronglySorted_app_1_elem_of _ _ _ k' k Hsorted).
    - apply elem_of_take. eauto.
    - apply list_elem_of_lookup. exists 0%nat. by rewrite lookup_drop, Nat.add_0_r. }
  assert (Hne : k' <> k).
  { intros ->. pose proof (NoDup_lookup _ _ _ _ Hnd Hj Hj'). lia. }
  lia.
Qed.

(** The valid results among what the folders gave, in their order. *)
Definition valid (found : list (option Z * option float)) : list (Z * float) :=
  omap (fun p => match p with (Some k, Some e) => Some (k, e) | _ => None end) found.

Definition store {A} (results : gmap Z A) (p : Z * A) : gmap Z A :=
  <[p.1 := p.2]> results.

Lemma collect_valid found : forall acc,
  collect found acc
  = (map (fun p => Energy p.1 p.2) (valid found), Ok (fold_left store (valid found) acc)).
Proof.
  induction found as [|[[k|] [e|]] found IH]; intros acc; try done;
    cbn [collect valid omap]; try apply IH.
  by rewrite py_print_bind, IH.
Qed.

Lemma fold_store_lookup {A} (pairs : list (Z * A)) : forall (acc : gmap Z A) k,
  NoDup pairs.*1 ->
  fold_left store pairs acc !! k
  = match list_to_map (M := gmap Z A) pairs !! k with
    | Some e => Some e
    | None => acc !! k
    end.
Proof.
  induction pairs as [|[k0 e0] pairs IH]; intros acc k Hnd.
  - simpl. by rewrite lookup_empty.
  - apply NoDup_cons in Hnd as [Hk0 Hnd].
    cbn [fold_left]. rewrite IH by done. unfold store at 1. simpl.
    rewrite (lookup_insert acc), (lookup_insert (list_to_map pairs)).
    case_decide as Hk; [subst k|done].
    by rewrite (not_elem_of_list_to_map_1 (M := gmap Z) pairs k0 Hk0).
Qed.

End KpointsMore.

Section MoreOfKpoints.
Import PyFacts SeqFacts FloatFacts KpointsFacts KpointsMore.
Local Open Scope float_scope.

(** X11.  The convergence point that the k-point sweep declares is the
    smallest value whose energy is within 0.001 of the energy at the
    largest value: when [k] is such a value and no smaller one is, the sweep
    prints the differences and then that it converged at [k]. *)
Theorem kpoints_declares_smallest_converged
    (found : list (option Z * option float)) (log : list Kpoints.msg)
    (results : gmap Z float) (kmax k : Z) (ref e : float) :
  Kpoints.collect found ∅ = (log, Ok results) ->
  results !! kmax = Some ref ->
  (forall k', is_Some (results !! k') -> (k' <= kmax)%Z) ->
  results !! k = Some e ->
  (abs (e - ref) <? Kpoints.threshold) = true ->
  (forall k' e', (k' < k)%Z -> results !! k' = Some e' ->
     (abs (e' - ref) <? Kpoints.threshold) = false) ->
  exists out,
    Kpoints.plot_kpoints_convergence found = (log ++ out ++ [Kpoints.ConvergedAt k], Ok tt)
    /\ Forall (fun m => exists k' d, m = Kpoints.Difference k' d) out.
Proof.
  intros Hcollect Href Hmax Hk Hlt Hsmaller.
  unfold Kpoints.plot_kpoints_convergence. rewrite Hcollect, py_bind_ok.
  case_decide as Hempty; [by rewrite Hempty, lookup_empty in Href|].
  unfold Kpoints.analyze.
  set (ks := Kpoints.sorted_keys results).
  assert (Hlast : last ks = Some kmax) by (apply sorted_keys_last; eauto).
  rewrite (mapM_res_ok _ (energy_of results)); cycle 1.
  { apply Forall_forall. intros k' Hk'. apply sorted_keys_elem in Hk' as [e' He'].
    unfold energy_of. by rewrite He'. }
  rewrite py_lift_bind.
  assert (Hlast_e : last (map (energy_of results) ks) = Some ref).
  { change (last (energy_of results <$> ks) = Some ref).
    rewrite fmap_last, Hlast. simpl. unfold energy_of. by rewrite Href. }
  rewrite (index_last _ _ Hlast_e), py_lift_bind.
  set (diffs := map (fun e => abs (e - ref)) (map (energy_of results) ks)).
  assert (Hdiff : forall j k', ks !! j = Some k' ->
            diffs !! j = Some (abs (energy_of results k' - ref))).
  { intros j k' Hj. unfold diffs.
    change (((fun e => abs (e - ref)) <$> (energy_of results <$> ks)) !! j
            = Some (abs (energy_of results k' - ref))).
    by rewrite !list_lookup_fmap, Hj. }
  assert (Hlen : length diffs = length ks) by (unfold diffs; by rewrite !length_map).
  assert (Hsome : forall j, (j < length ks)%nat -> is_Some (diffs !! (0 + j)%nat)).
  { intros j Hj. apply lookup_lt_is_Some. simpl. lia. }
  rewrite (report_ok ks 0 diffs Hsome), py_bind_ok, drop_0.
  assert (Hin : k ∈ ks) by (apply sorted_keys_elem; eauto).
  apply list_elem_of_lookup in Hin as [j Hj].
  rewrite (scan_first ks 0 diffs j k (abs (e - ref))); [| | | | |exact Hsome].
  - rewrite py_bind_ok. cbn [printed outcome fst snd].
    exists (zip_with Kpoints.Difference ks diffs). split.
    + by rewrite app_nil_r.
    + apply Forall_forall. intros m Hm.
      apply list_elem_of_lookup in Hm as [n Hn].
      apply lookup_zip_with_Some in Hn as (k' & d & -> & _ & _). by eexists _, _.
  - exact Hj.
  - simpl. rewrite (Hdiff j k Hj). unfold energy_of. by rewrite Hk.
  - exact Hlt.
  - intros j' d' Hj' Hd'. simpl in Hd'.
    destruct (lookup_lt_is_Some_2 ks j') as [k' Hk'];
      [apply lookup_lt_Some in Hj; lia|].
    rewrite (Hdiff j' k' Hk') in Hd'. injection Hd' as <-.
    pose proof (sorted_keys_before results j j' k k' Hj Hk' Hj') as Hkk.
    assert (Hin' : k' ∈ ks) by (by eapply list_elem_of_lookup_2).
    apply sorted_keys_elem in Hin' as [e' He'].
    unfold energy_of. rewrite He'. simpl. by eapply Hsmaller.
Qed.

Lemma kpoints_declares_smallest_witness :
  exists out,
    Kpoints.plot_kpoints_convergence three_folders
    = ([Kpoints.Energy 5 (-18.4); Kpoints.Energy 3 (-18.2); Kpoints.Energy 7 (-18.4004)]
       ++ out ++ [Kpoints.ConvergedAt 5], Ok tt)
    /\ Forall (fun m => exists k' d, m = Kpoints.Difference k' d) out.
Proof.
  apply (kpoints_declares_smallest_converged three_folders _
           (<[7%Z := -18.4004]> (<[3%Z := -18.2]> (<[5%Z := -18.4]> ∅))) 7 5
           (-18.4004) (-18.4)).
  - reflexivity.
  - reflexivity.
  - intros k [e He]. rewrite !lookup_insert in He.
    repeat case_decide; subst; try lia. by rewrite lookup_empty in He.
  - reflexivity.
  - vm_compute. reflexivity.
  - intros k' e' Hlt He'. rewrite !lookup_insert in He'.
    repeat case_decide; subst; try lia.
    + injection He' as <-. vm_compute. reflexivity.
    + by rewrite lookup_empty in He'.
Defined.

(** X12.  The dictionary that the sweep collects does not depend on the
    order in which the folders are read, when no k-point value comes twice:
    it holds the valid pairs, those with a k-point value and an energy, and
    nothing else. *)
Theorem kpoints_results_independent_of_order
    (found found' : list (option Z * option float)) :
  found ≡ₚ found' ->
  NoDup (valid found).*1 ->
  exists log log' results,
    Kpoints.collect found ∅ = (log, Ok results)
    /\ Kpoints.collect found' ∅ = (log', Ok results)
    /\ log ≡ₚ log'
    /\ forall k e, results !! k = Some e <-> (Some k, Some e) ∈ found.
Proof.
  intros Hperm Hnd.
  assert (Hvalid : valid found ≡ₚ valid found').
  { unfold valid. by apply omap_Permutation. }
  assert (Hnd' : NoDup (valid found').*1) by (by rewrite <- Hvalid).
  exists (map (fun p => Kpoints.Energy p.1 p.2) (valid found)),
         (map (fun p => Kpoints.Energy p.1 p.2) (valid found')),
         (fold_left store (valid found) ∅).
  split; [apply collect_valid|]. split; [|split].
  - rewrite collect_valid. do 2 f_equal. apply map_eq. intros k.
    rewrite !fold_store_lookup by done.
    by rewrite (list_to_map_proper (M := gmap Z) _ _ Hnd Hvalid).
  - by apply Permutation_map.
  - intros k e. rewrite fold_store_lookup by done.
    assert (Hmem : (k, e) ∈ valid found <-> (Some k, Some e) ∈ found).
    { unfold valid. rewrite list_elem_of_omap. split.
      - intros ([[k'|] [e'|]] & Hin & Heq); try done. by injection Heq as -> ->.
      - intros Hin. by exists (Some k, Some e). }
    rewrite <- Hmem, (elem_of_list_to_map (M := gmap Z) (valid found) k e Hnd).
    destruct (list_to_map (valid found) !! k); [done|].
    split; [by rewrite lookup_empty|done].
Qed.

Lemma kpoints_results_order_witness :
  exists log log' results,
    Kpoints.collect three_folders ∅ = (log, Ok results)
    /\ Kpoints.collect (rev three_folders) ∅ = (log', Ok results)
    /\ log ≡ₚ log'
    /\ forall k e, results !! k = Some e <-> (Some k, Some e) ∈ three_folders.
Proof.
  apply kpoints_results_independent_of_order.
  - apply Permutation_rev.
  - apply (bool_decide_unpack _). vm_compute. reflexivity.
Defined.

End MoreOfKpoints.

(** ** The helpers of the k-point sweep (Optimization_KPOINTS/KPOINTS_TEST.py) *)

Module TextFacts.
Import PyFacts SeqFacts FloatParseFacts.

Lemma split_on_go_plain sep x : forall cur,
  Forall (fun c => Ascii.eqb c sep = false) x ->
  split_on_go sep cur x = [rev cur ++ x].
Proof.
  induction x as [|c x IH]; intros cur Hx; simpl.
  - by rewrite app_nil_r.
  - inversion Hx as [|? ? Hc Hx']; subst. rewrite Hc, IH by done.
    simpl. by rewrite <- app_assoc.
Qed.

(** The last part of a split is what follows the last separator. *)
Lemma split_on_last sep pre tail : forall cur,
  Forall (fun c => Ascii.eqb c sep = false) tail ->
  last (split_on_go sep cur (pre ++ sep :: tail)) = Some tail.
Proof.
  induction pre as [|c pre IH]; intros cur Htail; simpl.
  - rewrite Ascii.eqb_refl, split_on_go_plain by done. reflexivity.
  - destruct (Ascii.eqb c sep).
    + rewrite last_cons, IH by done. reflexivity.
    + by apply IH.
Qed.

Lemma digits_forallb ds : digits ds -> forallb isdigit ds = true.
Proof.
  intros Hds. apply forallb_forall. intros c Hc.
  by apply (proj1 (Forall_forall _ _) Hds), list_elem_of_In.
Qed.

(** [int] of plain digits. *)
Lemma int_of_digits d ds :
  digits (d :: ds) -> (length (d :: ds) <= max_str_digits)%nat ->
  int_of_str (d :: ds) = Ok (digits_value (d :: ds)).
Proof.
  intros Hds Hlen. unfold int_of_str.
  assert (Hplain : Forall (fun c => isspace c = false) (d :: ds)).
  { eapply Forall_impl; [exact Hds|]. intros c Hc. by apply digit_plain. }
  rewrite (strip_plain _ Hplain).
  inversion Hds as [|? ? Hd Hds']; subst.
  destruct (digit_plain d Hd) as (_ & _ & Hminus & Hplus & _).
  unfold take_sign. rewrite Hminus, Hplus.
  rewrite drop_underscores_plain; [|done|].
  - rewrite (digits_forallb _ Hds), bool_decide_true by done. reflexivity.
  - eapply Forall_impl; [exact Hds|]. intros c Hc. by apply digit_plain.
Qed.

End TextFacts.

Module KpointsFilesFacts.
Import KpointsFiles PyFacts SeqFacts FloatParseFacts TextFacts.
Local Open Scope float_scope.

(** On a line of six words, the fifth word is the last but one. *)
Lemma six_words_index {A} (l : list A) :
  length l = 6%nat -> index l (-2) = index l 4.
Proof.
  intros Hlen. do 7 (destruct l as [|? l]; try discriminate Hlen). reflexivity.
Qed.

Lemma first_toten_encut lines :
  Forall (fun l => contains Encut.toten l = true -> length (split l) = 6%nat) lines ->
  first_toten lines = Encut.extract_energy_from_lines lines.
Proof.
  induction 1 as [|line lines Hline _ IH]; [done|].
  cbn [first_toten Encut.extract_energy_from_lines].
  destruct (contains Encut.toten line); [|exact IH].
  by rewrite six_words_index by auto.
Qed.

End KpointsFilesFacts.

Section MoreOfKpointsFiles.
Import PyFacts SeqFacts FloatParseFacts TextFacts KpointsFilesFacts.
Local Open Scope float_scope.

(** X13.  [get_kpoints_from_folder] reads the number after the last
    underscore of the name: for a name that ends in an underscore and
    digits it returns their value and prints nothing, whatever comes before
    that underscore. *)
Theorem kpoints_of_folder_after_last_underscore (prefix ds : str) :
  ds <> [] -> digits ds -> (length ds <= max_str_digits)%nat ->
  KpointsFiles.get_kpoints_from_folder (prefix ++ "_"%char :: ds)
  = ([], Ok (Some (digits_value ds))).
Proof.
  intros Hne Hds Hlen. unfold KpointsFiles.get_kpoints_from_folder.
  assert (Hlast : last (split_on "_" (prefix ++ "_"%char :: ds)) = Some ds).
  { apply split_on_last. eapply Forall_impl; [exact Hds|].
    intros c Hc. by apply digit_plain. }
  rewrite (index_last _ _ Hlast), py_lift_bind.
  destruct ds as [|d ds]; [done|].
  by rewrite (int_of_digits d ds Hds Hlen).
Qed.

Lemma kpoints_of_folder_witness :
  KpointsFiles.get_kpoints_from_folder (s "run_2/KPOINTS_11") = ([], Ok (Some 11%Z)).
Proof.
  apply (kpoints_of_folder_after_last_underscore (s "run_2/KPOINTS") (s "11")).
  - discriminate.
  - by repeat constructor.
  - unfold max_str_digits. simpl. lia.
Defined.

(** X14.  When ASE cannot read a file, the manual parse of the k-point
    sweep gives what the extraction of the cutoff sweep gives, as long as
    every line with the marker has six words: the same energy, no value and
    no message when no line has the marker, and no value and a message
    where the cutoff sweep raises. *)
Theorem kpoints_manual_parse_agrees_with_encut (x : exn) (text : str) :
  Forall (fun l => contains Encut.toten l = true -> length (split l) = 6%nat)
    (readlines text) ->
  KpointsFiles.extract_energy_from_outcar (Raise x) (Some text)
  = match Encut.extract_energy_from_outcar text with
    | Ok energy => ([], Ok energy)
    | Raise _ => ([KpointsFiles.NoEnergy], Ok None)
    end.
Proof.
  intros Hsix. unfold KpointsFiles.extract_energy_from_outcar, Encut.extract_energy_from_outcar.
  rewrite (first_toten_encut _ Hsix).
  by destruct (Encut.extract_energy_from_lines (readlines text)).
Qed.

Lemma kpoints_manual_parse_witness :
  KpointsFiles.extract_energy_from_outcar (Raise ValueError)
    (Some (s " POSCAR: C" ++ [ascii_of_N 10]
           ++ s "  free  energy   TOTEN  =       -18.40 eV" ++ [ascii_of_N 10]))
  = ([], Ok (Some (-18.4))).
Proof.
  rewrite kpoints_manual_parse_agrees_with_encut.
  - vm_compute. reflexivity.
  - vm_compute. repeat constructor; intros; try discriminate.
Defined.

End MoreOfKpointsFiles.

(** ** The work function (BAND/Function.py) *)

Module WorkFunctionFacts.
Import WorkFunction PyFacts SeqFacts FloatFacts.
Local Open Scope float_scope.

(** A line that does not give the vacuum level: it has no marker, or its
    last word is no number. *)
Definition passed_over (line : str) : Prop :=
  contains marker line = false
  \/ forall w, last (split line) = Some w -> parse_float w = None.

Lemma last_word_index (line w : str) :
  last (split line) = Some w -> index (split line) (-1) = Ok w.
Proof. apply index_last. Qed.

Lemma last_word_missing (line : str) :
  last (split line) = None -> index (split line) (-1) = Raise IndexError.
Proof. intros H. apply last_None in H. by rewrite H. Qed.

Lemma find_vacuum_level_passed lines rest :
  Forall passed_over lines ->
  find_vacuum_level (lines ++ rest) = find_vacuum_level rest.
Proof.
  induction 1 as [|line lines Hline _ IH]; [done|].
  cbn [app find_vacuum_level]. destruct (contains marker line) eqn:Hm; [|exact IH].
  destruct Hline as [Hline|Hline]; [congruence|].
  destruct (last (split line)) as [w|] eqn:Hw.
  - rewrite (last_word_index _ _ Hw). cbn [mbind res_bind].
    unfold float_of_str. by rewrite (Hline w eq_refl).
  - by rewrite (last_word_missing _ Hw).
Qed.

Lemma find_vacuum_level_here line w v rest :
  contains marker line = true -> last (split line) = Some w -> parse_float w = Some v ->
  find_vacuum_level (line :: rest) = Some v.
Proof.
  intros Hm Hw Hv. cbn [find_vacuum_level].
  rewrite Hm, (last_word_index _ _ Hw). cbn [mbind res_bind].
  unfold float_of_str. by rewrite Hv.
Qed.

End WorkFunctionFacts.

Section MoreOfWorkFunction.
Import PyFacts SeqFacts FloatFacts WorkFunctionFacts.
Local Open Scope float_scope.

(** X15.  [calculate_work_function] takes the vacuum level from the first
    line of OUTCAR that holds the marker and ends in a number, and returns
    it unchanged, the Fermi level being zero: lines with the marker whose
    last word is no number are passed over, and so is all that follows. *)
Theorem work_function_first_vacuum_level
    (text : str) (before after : list str) (line w : str) (v : float) :
  readlines text = before ++ line :: after ->
  Forall passed_over before ->
  contains WorkFunction.marker line = true ->
  last (split line) = Some w ->
  parse_float w = Some v ->
  WorkFunction.calculate_work_function (Some text)
  = ([WorkFunction.WorkFunctionIs v], Ok v).
Proof.
  intros Hlines Hbefore Hm Hw Hv. unfold WorkFunction.calculate_work_function.
  rewrite Hlines, (find_vacuum_level_passed _ _ Hbefore),
    (find_vacuum_level_here line w v after Hm Hw Hv).
  rewrite py_ret_bind, !sub_0_r. reflexivity.
Qed.

Lemma work_function_first_witness :
  WorkFunction.calculate_work_function
    (Some (s " vacuum level on the upper side" ++ [ascii_of_N 10]
           ++ s " vacuum level (eV) = 4.62" ++ [ascii_of_N 10]
           ++ s " vacuum level (eV) = 9.99" ++ [ascii_of_N 10]))
  = ([WorkFunction.WorkFunctionIs 4.62], Ok 4.62).
Proof.
  apply (work_function_first_vacuum_level _
           [s " vacuum level on the upper side" ++ [ascii_of_N 10]]
           [s " vacuum level (eV) = 9.99" ++ [ascii_of_N 10]]
           (s " vacuum level (eV) = 4.62" ++ [ascii_of_N 10]) (s "4.62")).
  - reflexivity.
  - constructor; [|constructor]. right. intros w Hw.
    vm_compute in Hw. injection Hw as <-. reflexivity.
  - reflexivity.
  - reflexivity.
  - vm_compute. reflexivity.
Defined.

(** X16.  When OUTCAR is missing, or none of its lines gives a vacuum
    level, [calculate_work_function] warns and returns 4.5, the value it
    takes for graphene. *)
Theorem work_function_default (file : option str) :
  (forall text, file = Some text -> Forall passed_over (readlines text)) ->
  WorkFunction.calculate_work_function file
  = ([WorkFunction.VacuumLevelNotFound; WorkFunction.WorkFunctionIs 4.5], Ok 4.5).
Proof.
  intros Hfile. unfold WorkFunction.calculate_work_function.
  assert (Hnone : match file with
                  | Some text => WorkFunction.find_vacuum_level (readlines text)
                  | None => None
                  end = None).
  { destruct file as [text|]; [|done].
    rewrite <- (app_nil_r (readlines text)).
    by rewrite (find_vacuum_level_passed _ [] (Hfile text eq_refl)). }
  rewrite Hnone. reflexivity.
Qed.

Lemma work_function_default_witness :
  WorkFunction.calculate_work_function
    (Some (s " vacuum level : not computed" ++ [ascii_of_N 10]))
  = ([WorkFunction.VacuumLevelNotFound; WorkFunction.WorkFunctionIs 4.5], Ok 4.5).
Proof.
  apply work_function_default. intros text [= <-].
  constructor; [|constructor]. right. intros w Hw.
  vm_compute in Hw. injection Hw as <-. reflexivity.
Defined.

End MoreOfWorkFunction.

(** ** The three readers of the label file (BAND/BAND_Orbits.py, BAND/BAND.py
    and BAND/Dirac.py) *)

Module ReadersFacts.
Import Dirac PyFacts SeqFacts KlabelsFacts.
Local Open Scope float_scope.

(** What a line adds in BAND_Orbits.py: its second word as a number and its
    first word. *)
Definition orbits_entry (line : str) : option (float * str) :=
  match strip line with
  | [] => None
  | _ :: _ =>
      if startswith (s "*") line then None
      else
        match split line with
        | first :: second :: _ =>
            match parse_float second with
            | Some kpoint => Some (kpoint, first)
            | None => None
            end
        | _ => None
        end
  end.

Lemma orbits_line_entry st line :
  BandOrbits.klabels_line st line = Ok (add_entry st (orbits_entry line)).
Proof.
  unfold BandOrbits.klabels_line, orbits_entry.
  destruct (strip line); [done|].
  destruct (startswith (s "*") line); [done|].
  destruct (split line) as [|first [|second rest]] eqn:Hsplit; try done.
  case_decide; [|simpl in *; lia].
  pose proof (index_nat (first :: second :: rest) 1%nat second eq_refl) as Hsecond.
  change (Z.of_nat 1) with 1%Z in Hsecond. rewrite Hsecond.
  change (index (first :: second :: rest) 0) with (Ok first).
  cbn [mbind res_bind]. unfold float_of_str.
  by destruct (parse_float second).
Qed.

Lemma orbits_lines_entries lines : forall st,
  BandOrbits.klabels_lines st lines
  = Ok (fold_left add_entry (map orbits_entry lines) st).
Proof.
  induction lines as [|line lines IH]; intros st; [done|].
  cbn [BandOrbits.klabels_lines map fold_left].
  rewrite orbits_line_entry. cbn [mbind res_bind]. apply IH.
Qed.

(** The label of BAND.py: a backslash before [Gamma]. *)
Definition gamma_label (label : str) : str :=
  if str_eqb label (s "Gamma") then backslash :: s "Gamma" else label.

Definition band_entry (line : str) : option (float * str) :=
  match strip line with
  | [] => None
  | _ :: _ =>
      match split line with
      | first :: second :: _ =>
          match parse_float second with
          | Some coord => Some (coord, gamma_label first)
          | None => None
          end
      | _ => None
      end
  end.

Lemma band_line_entry st line :
  Band.klabels_line st line = Ok (add_entry st (band_entry line)).
Proof.
  unfold Band.klabels_line, band_entry.
  destruct (strip line); [done|].
  destruct (split line) as [|first [|second rest]] eqn:Hsplit; try done.
  case_decide; [|simpl in *; lia].
  pose proof (index_nat (first :: second :: rest) 1%nat second eq_refl) as Hsecond.
  change (Z.of_nat 1) with 1%Z in Hsecond. rewrite Hsecond.
  change (index (first :: second :: rest) 0) with (Ok first).
  cbn [mbind res_bind]. unfold float_of_str.
  by destruct (parse_float second).
Qed.

Lemma band_lines_entries lines : forall st,
  Band.klabels_lines st lines = Ok (fold_left add_entry (map band_entry lines) st).
Proof.
  induction lines as [|line lines IH]; intros st; [done|].
  cbn [Band.klabels_lines map fold_left].
  rewrite band_line_entry. cbn [mbind res_bind]. apply IH.
Qed.

(** An entry with its label changed. *)
Definition relabel (f : str -> str) (e : option (float * str)) : option (float * str) :=
  match e with
  | Some (coord, label) => Some (coord, f label)
  | None => None
  end.

Lemma fold_relabel (f : str -> str) (e1 e2 : str -> option (float * str)) lines :
  Forall (fun line => e1 line = relabel f (e2 line)) lines ->
  forall st : klabels,
    fold_left add_entry (map e1 lines) (st.1, map f st.2)
    = ((fold_left add_entry (map e2 lines) st).1,
       map f (fold_left add_entry (map e2 lines) st).2).
Proof.
  induction 1 as [|line lines Hline _ IH]; intros st; [done|].
  cbn [map fold_left]. rewrite Hline.
  destruct (e2 line) as [[coord label]|]; cbn [relabel add_entry]; [|apply IH].
  rewrite <- IH. cbn [fst snd]. by rewrite map_app.
Qed.

(** A line of a label file as VASPKIT writes it: a label and a coordinate
    at most, or a note, which starts with a star and does not end in a
    number. *)
Definition label_line (line : str) : Prop :=
  (startswith (s "*") line = false /\ (length (split line) <= 2)%nat)
  \/ (startswith (s "*") line = true
      /\ forall q, last (split line) = Some q -> parse_float q = None).

Lemma label_line_entry line :
  label_line line -> entry line = relabel (replace backslash []) (orbits_entry line).
Proof.
  unfold entry, orbits_entry. intros [[Hstar Hlen]|[Hstar Hlast]]; rewrite Hstar.
  - destruct (strip line); [done|].
    destruct (split line) as [|first [|second [|third rest]]]; try done;
      [|simpl in Hlen; lia].
    cbn [last]. by destruct (parse_float second).
  - destruct (strip line); [done|].
    destruct (split line) as [|first [|second rest]]; try done.
    destruct (last (first :: second :: rest)) as [q|]; [|done].
    by rewrite (Hlast q eq_refl).
Qed.

(** A line that is no note with a number for its second word. *)
Definition no_numbered_note (line : str) : Prop :=
  startswith (s "*") line = false
  \/ forall q, split line !! 1%nat = Some q -> parse_float q = None.

Lemma no_numbered_note_entry line :
  no_numbered_note line -> band_entry line = relabel gamma_label (orbits_entry line).
Proof.
  unfold band_entry, orbits_entry. intros [Hstar|Hsecond].
  - rewrite Hstar. destruct (strip line); [done|].
    destruct (split line) as [|first [|second rest]]; try done.
    by destruct (parse_float second).
  - destruct (strip line); [done|].
    destruct (split line) as [|first [|second rest]];
      try by destruct (startswith (s "*") line).
    rewrite (Hsecond second eq_refl). by destruct (startswith (s "*") line).
Qed.

(** [upper] gives [K] for the two letters only. *)
Lemma upper_char_nonempty c : upper_char c <> [].
Proof. unfold upper_char. by repeat case_match. Qed.

Lemma upper_char_K c : upper_char c = [75%N] -> c = "k"%char \/ c = "K"%char.
Proof.
  destruct c as [[] [] [] [] [] [] [] []]; intros H; try discriminate H; auto.
Qed.

Lemma upper_K label : upper label = [75%N] -> label = s "k" \/ label = s "K".
Proof.
  destruct label as [|c [|d label]]; unfold upper; cbn [flat_map].
  - discriminate.
  - rewrite app_nil_r. intros H. destruct (upper_char_K c H) as [->| ->]; auto.
  - intros H. pose proof (upper_char_nonempty c) as Hc.
    pose proof (upper_char_nonempty d) as Hd.
    destruct (upper_char c) as [|x [|y l]]; [done| |]; simpl in H.
    + destruct (upper_char d); [done|discriminate H].
    + discriminate H.
Qed.

Lemma find_k_label_inv labels : forall i j,
  BandOrbits.find_k_label i labels = Some j ->
  (i <= j)%nat
  /\ exists l, labels !! (j - i)%nat = Some l /\ (l = s "k" \/ l = s "K").
Proof.
  induction labels as [|label labels IH]; intros i j; simpl; [done|].
  case_bool_decide as Hk.
  - intros [= <-]. split; [lia|]. rewrite Nat.sub_diag.
    exists label. split; [done|]. by apply upper_K.
  - intros Hj. destruct (IH _ _ Hj) as (Hle & l & Hl & Hlk).
    split; [lia|]. exists l. split; [|done].
    by replace (j - i)%nat with (S (j - S i)) by lia.
Qed.

Lemma find_k_found labels : forall i n l,
  labels !! n = Some l -> lower l ∈ k_names ->
  exists j, find_k i labels = Some j /\ (j <= i + n)%nat.
Proof.
  induction labels as [|label labels IH]; intros i n l Hl Hin; [done|].
  simpl. case_bool_decide as Hk.
  - exists i. split; [done|lia].
  - destruct n as [|n]; [simpl in Hl; by simplify_eq|].
    destruct (IH (S i) n l Hl Hin) as (j & Hj & Hle).
    exists j. split; [done|lia].
Qed.

End ReadersFacts.

Section MoreOfReaders.
Import PyFacts SeqFacts KlabelsFacts ReadersFacts.
Local Open Scope float_scope.

(** X17.  On a label file as VASPKIT writes it, a header with [K-Label] or
    [Coordinate], then lines of a label and a coordinate and notes that
    start with a star, [read_klabels] of BAND_Orbits.py and [read_klabels]
    of Dirac.py read the same points and the same labels, but for the
    backslashes that Dirac.py removes from the labels. *)
Theorem klabels_readers_agree (text header : str) (body : list str) :
  readlines text = header :: body ->
  Dirac.is_header header = true ->
  Forall label_line body ->
  exists points labels,
    BandOrbits.read_klabels text = Ok (points, labels)
    /\ Dirac.read_klabels (Some text)
       = ([], Ok (points, map (replace backslash []) labels)).
Proof.
  intros Hlines Hheader Hbody.
  exists (fold_left add_entry (map orbits_entry body) ([], [])).1,
         (fold_left add_entry (map orbits_entry body) ([], [])).2.
  split.
  - unfold BandOrbits.read_klabels. rewrite Hlines. cbn [drop].
    rewrite orbits_lines_entries. by destruct (fold_left _ _ _).
  - rewrite read_klabels_entries, Hlines. unfold after_header. rewrite Hheader.
    do 2 f_equal.
    apply (fold_relabel (replace backslash []) entry orbits_entry body
             (Forall_impl _ _ _ Hbody label_line_entry) ([], [])).
Qed.

Definition vaspkit_labels : str :=
  s "K-Label    K-Coordinate in band-structure plots" ++ [ascii_of_N 10]
  ++ s "GAMMA              0.000" ++ [ascii_of_N 10]
  ++ s "M                  1.474" ++ [ascii_of_N 10]
  ++ s "K                  2.325" ++ [ascii_of_N 10]
  ++ s " " ++ [ascii_of_N 10]
  ++ s "* Give the label for each high symmetry point in KPATH.in file." ++ [ascii_of_N 10].

Lemma klabels_readers_witness :
  exists points labels,
    BandOrbits.read_klabels vaspkit_labels = Ok (points, labels)
    /\ Dirac.read_klabels (Some vaspkit_labels)
       = ([], Ok (points, map (replace backslash []) labels)).
Proof.
  apply (klabels_readers_agree vaspkit_labels
           (s "K-Label    K-Coordinate in band-structure plots" ++ [ascii_of_N 10])
           [s "GAMMA              0.000" ++ [ascii_of_N 10];
            s "M                  1.474" ++ [ascii_of_N 10];
            s "K                  2.325" ++ [ascii_of_N 10];
            s " " ++ [ascii_of_N 10];
            s "* Give the label for each high symmetry point in KPATH.in file."
              ++ [ascii_of_N 10]]).
  - reflexivity.
  - reflexivity.
  - repeat (constructor; [by left; split; [reflexivity|vm_compute; lia]|]).
    constructor; [|constructor]. right. split; [reflexivity|].
    intros q Hq. vm_compute in Hq. injection Hq as <-. reflexivity.
Defined.

(** X18.  BAND.py and BAND_Orbits.py read the same points and labels from
    a label file, BAND.py writing [Gamma] with a backslash before it, unless
    the file has a note, a line that starts with a star, whose second word
    is a number: BAND.py takes such a note for a point. *)
Theorem band_readers_agree (text : str) :
  Forall no_numbered_note (drop 1 (readlines text)) ->
  exists points labels,
    BandOrbits.read_klabels text = Ok (points, labels)
    /\ Band.read_klabels text = Ok (points, map gamma_label labels).
Proof.
  intros Hbody.
  exists (fold_left add_entry (map orbits_entry (drop 1 (readlines text))) ([], [])).1,
         (fold_left add_entry (map orbits_entry (drop 1 (readlines text))) ([], [])).2.
  split.
  - unfold BandOrbits.read_klabels.
    rewrite orbits_lines_entries. by destruct (fold_left _ _ _).
  - unfold Band.read_klabels. rewrite band_lines_entries. f_equal.
    apply (fold_relabel gamma_label band_entry orbits_entry _
             (Forall_impl _ _ _ Hbody no_numbered_note_entry) ([], [])).
Qed.

Lemma band_readers_witness :
  exists points labels,
    BandOrbits.read_klabels vaspkit_labels = Ok (points, labels)
    /\ Band.read_klabels vaspkit_labels = Ok (points, map gamma_label labels).
Proof.
  apply band_readers_agree.
  repeat (constructor; [by left|]).
  constructor; [|constructor]. right.
  intros q Hq. vm_compute in Hq. injection Hq as <-. reflexivity.
Defined.

(** X19.  When BAND_Orbits.py finds its K point among the labels it read,
    at the first label that is [K] or [k], Dirac.py finds a K point as well
    among the labels as it reads them, without their backslashes: at that
    label or at an earlier one, and it does not fall back on the middle
    label. *)
Theorem dirac_finds_k_where_band_orbits_does (labels : list str) (i : nat) :
  BandOrbits.find_k_label 0 labels = Some i ->
  exists j,
    Dirac.find_k 0 (map (replace backslash []) labels) = Some j /\ (j <= i)%nat.
Proof.
  intros Hi. destruct (find_k_label_inv _ _ _ Hi) as (_ & l & Hl & Hk).
  rewrite Nat.sub_0_r in Hl.
  destruct (find_k_found (map (replace backslash []) labels) 0 i l) as (j & Hj & Hle).
  - change ((replace backslash [] <$> labels) !! i = Some l).
    rewrite list_lookup_fmap, Hl. by destruct Hk as [-> | ->].
  - destruct Hk as [-> | ->]; by apply (bool_decide_unpack _).
  - by exists j.
Qed.

Lemma dirac_finds_k_witness :
  exists j,
    Dirac.find_k 0 (map (replace backslash []) [s "GAMMA"; backslash :: s "K"; s "K"])
    = Some j /\ (j <= 2)%nat.
Proof.
  apply dirac_finds_k_where_band_orbits_does. reflexivity.
Defined.

End MoreOfReaders.

(** ** The points near the Dirac point (BAND/BAND_Orbits.py) *)

Module NearFacts.
Import PyFacts SeqFacts FloatFacts FloatMore.
Local Open Scope float_scope.

Lemma ltb_nan_r a b : isnan b = true -> (a <? b) = false.
Proof.
  rewrite isnan_spec, FloatAxioms.ltb_spec. unfold SFltb, SFcompare.
  destruct (Prim2SF b); try done. by destruct (Prim2SF a) as [[]|[]| |].
Qed.

Lemma leb_nan_l a b : isnan a = true -> (a <=? b) = false.
Proof.
  rewrite isnan_spec, FloatAxioms.leb_spec. unfold SFleb, SFcompare.
  by destruct (Prim2SF a).
Qed.

Lemma leb_numbers a b : (a <=? b) = true -> isnan a = false /\ isnan b = false.
Proof.
  intros H. split.
  - destruct (isnan a) eqn:Ha; [|done]. by rewrite leb_nan_l in H.
  - destruct (isnan b) eqn:Hb; [|done]. by rewrite leb_nan_r in H.
Qed.

Lemma ltb_numbers a b : (a <? b) = true -> isnan a = false /\ isnan b = false.
Proof.
  intros H. split.
  - destruct (isnan a) eqn:Ha; [|done]. by rewrite ltb_nan_l in H.
  - destruct (isnan b) eqn:Hb; [|done]. by rewrite ltb_nan_r in H.
Qed.

Lemma leb_ltb_trans a b c : (a <=? b) = true -> (b <? c) = true -> (a <? c) = true.
Proof.
  intros Hab Hbc.
  destruct (leb_numbers _ _ Hab) as [Ha Hb]. destruct (ltb_numbers _ _ Hbc) as [_ Hc].
  rewrite leb_np_lt in Hab by done. apply negb_true_iff in Hab.
  rewrite ltb_np_lt in * by done.
  destruct (np_lt a c) eqn:Hac; [done|].
  by rewrite (np_lt_negtrans b a c Hab Hac) in Hbc.
Qed.

Lemma ltb_leb_trans a b c : (a <? b) = true -> (b <=? c) = true -> (a <? c) = true.
Proof.
  intros Hab Hbc.
  destruct (leb_numbers _ _ Hbc) as [Hb Hc]. destruct (ltb_numbers _ _ Hab) as [Ha _].
  rewrite leb_np_lt in Hbc by done. apply negb_true_iff in Hbc.
  rewrite ltb_np_lt in * by done.
  destruct (np_lt a c) eqn:Hac; [done|].
  by rewrite (np_lt_negtrans a c b Hac Hbc) in Hab.
Qed.

(** A narrower range around the same centre selects no more. *)
Lemma near_narrower centre narrow wide x :
  (centre - wide <=? centre - narrow) = true ->
  (centre + narrow <=? centre + wide) = true ->
  BandOrbits.near centre narrow x = true -> BandOrbits.near centre wide x = true.
Proof.
  unfold BandOrbits.near. intros Hlo Hhi Hx.
  apply andb_true_iff in Hx as [Hx1 Hx2]. apply andb_true_iff. split.
  - by apply (leb_ltb_trans _ (centre - narrow)).
  - by apply (ltb_leb_trans _ (centre + narrow)).
Qed.

End NearFacts.

Section MoreOfBandOrbits.
Import PyFacts SeqFacts FloatFacts FloatMore NearFacts.
Local Open Scope float_scope.

(** X20.  [analyze_dirac_cone_contributions] looks for the points within
    2 eV of the Fermi energy, and when there is none it warns and looks
    again within 0.5 eV.  The second range lies inside the first one, so
    the second look finds nothing either: after the warning no point is
    selected.  The Fermi energy is one whose bounds are in order, as those
    of the value 0.0 that the script uses are. *)
Theorem band_orbits_second_range_selects_nothing
    (data : ndarray2) (klabels_text : str) (fermi_energy : float)
    (log : list BandOrbits.msg) (sel : BandOrbits.selection) :
  (fermi_energy - 2 <=? fermi_energy - 0.5) = true ->
  (fermi_energy + 0.5 <=? fermi_energy + 2) = true ->
  BandOrbits.select_dirac_cone data klabels_text fermi_energy = (log, Ok sel) ->
  BandOrbits.NoPointNearFermi ∈ log ->
  Forall (fun selected => selected = false) (BandOrbits.e_mask sel).
Proof.
  intros Hlo Hhi Hrun Hlog. unfold BandOrbits.select_dirac_cone in Hrun.
  apply py_bind_inv in Hrun as (? & [[k_path energy] orbitals] & ? & H1 & Hrun & ->).
  apply lift_inv in H1 as [_ ->].
  apply py_bind_inv in Hrun as (? & [high_sym_k high_sym_labels] & ? & H1 & Hrun & ->).
  apply lift_inv in H1 as [_ ->].
  destruct (BandOrbits.find_k_label 0 high_sym_labels) as [i|]; [|done].
  apply py_bind_inv in Hrun as (? & k_point & ? & H1 & Hrun & ->).
  apply lift_inv in H1 as [_ ->].
  apply py_bind_inv in Hrun as (? & idx & ? & H1 & Hrun & ->).
  apply lift_inv in H1 as [_ ->].
  apply py_bind_inv in Hrun as (? & k_near & ? & H1 & Hrun & ->).
  apply lift_inv in H1 as [_ ->].
  apply py_bind_inv in Hrun as (? & energy_near & ? & H1 & Hrun & ->).
  apply lift_inv in H1 as [_ ->].
  apply py_bind_inv in Hrun as (? & orbitals_near & ? & H1 & Hrun & ->).
  apply lift_inv in H1 as [_ ->].
  apply py_bind_inv in Hrun as (out & mask & ? & Hmask & Hrun & ->).
  injection Hrun as <- <-. cbn [BandOrbits.e_mask].
  simpl in Hlog. rewrite app_nil_r in Hlog.
  destruct (forallb negb (map (BandOrbits.near fermi_energy 2) energy_near)) eqn:Hnone.
  - rewrite py_print_bind in Hmask. injection Hmask as _ <-.
    apply Forall_forall. intros b Hb.
    apply list_elem_of_fmap in Hb as (x & -> & Hx).
    destruct (BandOrbits.near fermi_energy 0.5 x) eqn:Hnear; [|done].
    apply (near_narrower fermi_energy 0.5 2 x Hlo Hhi) in Hnear.
    rewrite forallb_forall in Hnone.
    specialize (Hnone (BandOrbits.near fermi_energy 2 x)).
    rewrite Hnear in Hnone. assert (Hfalse : negb true = true); [|done].
    apply Hnone. rewrite <- Hnear. apply in_map. by apply list_elem_of_In.
  - injection Hmask as <- _. by apply elem_of_nil in Hlog.
Qed.

(** A table of two points next to K, both far from the Fermi level. *)
Definition far_bands : ndarray2 :=
  {| ncols := 6;
     rows := [[2.0; 3.0; 0.1; 0.2; 0.3; 0.4]; [2.5; -4.0; 0.1; 0.2; 0.3; 0.4]] |}.

Lemma band_orbits_second_range_witness :
  Forall (fun selected => selected = false)
    match BandOrbits.select_dirac_cone far_bands vaspkit_labels 0 with
    | (_, Ok sel) => BandOrbits.e_mask sel
    | (_, Raise _) => [true]
    end.
Proof.
  destruct (BandOrbits.select_dirac_cone far_bands vaspkit_labels 0)
    as [log [sel|e]] eqn:Hrun.
  - apply (band_orbits_second_range_selects_nothing far_bands vaspkit_labels 0 log sel).
    + reflexivity.
    + reflexivity.
    + exact Hrun.
    + vm_compute in Hrun. injection Hrun as <- _. constructor.
  - vm_compute in Hrun. discriminate Hrun.
Defined.

End MoreOfBandOrbits.

(** ** The projected bands (BAND/Orbit_Band.py) *)

Module OrbitBandFacts.
Import OrbitBand PyFacts SeqFacts FloatParseFacts TextFacts KpointsMore.
Local Open Scope float_scope.

Lemma mapM_res_length {A B} (f : A -> res B) (l : list A) : forall l',
  mapM f l = Ok l' -> length l' = length l.
Proof.
  induction l as [|a l IH]; intros l'; cbn [mapM].
  - by intros [= <-].
  - destruct (f a) as [b|]; [|done]. cbn [mbind res_bind].
    destruct (mapM f l) as [k|]; [|done]. cbn [mbind res_bind].
    intros [= <-]. simpl. by rewrite (IH k).
Qed.

Lemma split_go_nonempty x : forall cur, cur <> [] -> split_go cur x <> [].
Proof.
  induction x as [|c x IH]; intros cur Hcur; simpl.
  - by destruct cur.
  - destruct (isspace c); [by destruct cur|]. by apply IH.
Qed.

(** A line that starts with a character that is no white space has a word. *)
Lemma split_nonempty c rest : isspace c = false -> split (c :: rest) <> [].
Proof.
  intros Hc. unfold split. simpl. rewrite Hc. by apply split_go_nonempty.
Qed.

Lemma isdigit_char_not_space c : isdigit_char c = true -> isspace c = false.
Proof.
  destruct c as [[] [] [] [] [] [] [] []]; intros H; try discriminate H; reflexivity.
Qed.

(** A table as the script uses it: rows of one length, with one row and one
    column at least. *)
Definition table (t : ndarray2) : Prop :=
  well_shaped t /\ rows t <> [] /\ (1 <= ncols t)%nat.

Definition starts_with_word (line : str) : Prop :=
  exists c rest, line = c :: rest /\ isspace c = false.

Definition inv (st : state) : Prop :=
  map_Forall (fun _ t => table t) (bands st)
  /\ Forall starts_with_word (data_lines st).

Lemma np_array_table rows0 t :
  np_array rows0 = Ok t ->
  (forall r, head rows0 = Some r -> r <> []) ->
  table t.
Proof.
  unfold np_array. destruct rows0 as [|row rows']; [done|].
  destruct (forallb _ rows') eqn:Hlen; [|done]. intros [= <-] Hrow.
  split; [|split]; cbn [rows ncols].
  - constructor; [done|]. apply Forall_forall. intros r Hr.
    rewrite forallb_forall in Hlen.
    by apply Nat.eqb_eq, Hlen, list_elem_of_In.
  - done.
  - specialize (Hrow row eq_refl). destruct row; [done|simpl; lia].
Qed.

Lemma flush_inv st st' : inv st -> flush st = Ok st' -> inv st'.
Proof.
  intros [Hbands Hlines]. unfold flush.
  destruct (current_band st) as [band|]; [|by intros [= <-]].
  destruct (data_lines st) as [|line lines] eqn:Hdata;
    [intros [= <-]; split; [done|by rewrite Hdata]|].
  destruct (parse_rows (line :: lines)) as [rows0|] eqn:Hrows; [|done].
  cbn [mbind res_bind]. destruct (np_array rows0) as [t|] eqn:Ht; [|done].
  cbn [mbind res_bind]. intros [= <-]. split; cbn [bands data_lines]; [|done].
  apply map_Forall_insert_2; [|done].
  apply (np_array_table rows0 t Ht). intros r Hr.
  unfold parse_rows in Hrows. cbn [mapM] in Hrows.
  destruct (mapM float_of_str (split line)) as [r0|] eqn:Hr0; [|done].
  cbn [mbind res_bind] in Hrows.
  destruct (mapM _ lines) as [rs|]; [|done]. cbn [mbind res_bind] in Hrows.
  injection Hrows as <-. injection Hr as <-.
  apply mapM_res_length in Hr0.
  inversion Hlines as [|? ? (c & rest & -> & Hc) _]; subst.
  pose proof (split_nonempty c rest Hc) as Hne.
  destruct (split (c :: rest)); [done|]. by destruct r0.
Qed.

Lemma step_inv st line st' : inv st -> step st line = Ok st' -> inv st'.
Proof.
  intros Hinv. unfold step.
  destruct (strip line) as [|c rest] eqn:Hline; [by intros [= <-]|].
  destruct (startswith (s "# Band-Index") (c :: rest)).
  - destruct (flush st) as [st1|] eqn:Hflush; [|done]. cbn [mbind res_bind].
    pose proof (flush_inv _ _ Hinv Hflush) as Hinv1.
    destruct (search band_index_at (c :: rest)) as [ds|]; [|by intros [= <-]].
    destruct (int_of_str ds); [|done]. cbn [mbind res_bind]. by intros [= <-].
  - destruct (startswith (s "#K-Path") (c :: rest) || negb (isdigit_char c)) eqn:Hskip;
      [by intros [= <-]|].
    intros [= <-]. destruct Hinv as [Hbands Hlines]. split; [done|].
    cbn [data_lines]. apply Forall_app. split; [done|].
    constructor; [|done]. exists c, rest. split; [done|].
    apply orb_false_iff in Hskip as [_ Hc]. apply negb_false_iff in Hc.
    by apply isdigit_char_not_space.
Qed.

Lemma steps_inv lines : forall st st', inv st -> steps st lines = Ok st' -> inv st'.
Proof.
  induction lines as [|line lines IH]; intros st st' Hinv; cbn [steps].
  - by intros [= <-].
  - destruct (step st line) as [st1|] eqn:Hstep; [|done]. cbn [mbind res_bind].
    apply IH. by eapply step_inv.
Qed.

(** A line that [parse_band_data] passes over: a blank line, or a line whose
    first character is no digit and that is no title of a band. *)
Definition ignored (line : str) : bool :=
  match strip line with
  | [] => true
  | c :: _ => negb (startswith (s "# Band-Index") (strip line)) && negb (isdigit_char c)
  end.

Lemma step_ignored st line : ignored line = true -> step st line = Ok st.
Proof.
  unfold ignored, step. destruct (strip line) as [|c rest]; [done|].
  intros H. apply andb_true_iff in H as [Htitle Hc].
  apply negb_true_iff in Htitle. rewrite Htitle, Hc. by rewrite orb_true_r.
Qed.

Lemma steps_ignored lines : forall st,
  steps st lines = steps st (filter (fun line => ignored line = false) lines).
Proof.
  induction lines as [|line lines IH]; intros st; [done|].
  rewrite filter_cons. destruct (ignored line) eqn:Hline.
  - rewrite decide_False by done. cbn [steps].
    rewrite (step_ignored st line Hline). cbn [mbind res_bind]. apply IH.
  - rewrite decide_True by done. cbn [steps].
    destruct (step st line); [|done]. cbn [mbind res_bind]. apply IH.
Qed.

Lemma steps_app l1 : forall st l2,
  steps st (l1 ++ l2) = st' ← steps st l1; steps st' l2.
Proof.
  induction l1 as [|line l1 IH]; intros st l2; [done|].
  cbn [app steps]. destruct (step st line); [|done]. cbn [mbind res_bind]. apply IH.
Qed.

(** *** A file of bands *)

(** A band in a file: its title and the lines of its rows, with the number
    and the table that they stand for. *)
Record block : Type :=
  { title : str;
    row_lines : list str;
    number : Z;
    array : ndarray2 }.

Definition block_lines (b : block) : list str := title b :: row_lines b.

(** A row starts with a digit. *)
Definition digit_row (line : str) : Prop :=
  exists c rest, strip line = c :: rest /\ isdigit c = true.

(** The title is the marker, white space and the number in digits, and the
    rows are numbers, as many in every row. *)
Definition well_formed (b : block) : Prop :=
  (exists ws ds,
     strip (title b) = s "# Band-Index" ++ ws ++ ds
     /\ ws <> [] /\ Forall (fun c => isspace c = true) ws
     /\ ds <> [] /\ digits ds /\ (length ds <= max_str_digits)%nat
     /\ number b = digits_value ds)
  /\ row_lines b <> []
  /\ Forall digit_row (row_lines b)
  /\ parse_rows (map strip (row_lines b)) = Ok (rows (array b))
  /\ np_array (rows (array b)) = Ok (array b).

Lemma literal_run {A} x : forall c y (k : str -> option A),
  run (literal c x) (c :: x ++ y) k = k y.
Proof.
  induction x as [|d x IH]; intros c y k; cbn [literal run app].
  - by rewrite Ascii.eqb_refl.
  - rewrite Ascii.eqb_refl. apply IH.
Qed.

(** A repetition takes a whole run when what follows the run matches. *)
Lemma star_run {A} p m rest (k : str -> option A) a :
  Forall (fun c => p c = true) m ->
  match rest with [] => True | c :: _ => p c = false end ->
  k rest = Some a ->
  star p (m ++ rest) k = Some a.
Proof.
  intros Hm Hrest Hk. induction Hm as [|c m Hc _ IH]; cbn [app].
  - destruct rest as [|c rest]; [done|]. cbn [star]. by rewrite Hrest.
  - cbn [star]. by rewrite Hc, IH.
Qed.

Lemma title_index ws ds :
  ws <> [] -> Forall (fun c => isspace c = true) ws ->
  ds <> [] -> digits ds ->
  search band_index_at (s "# Band-Index" ++ ws ++ ds) = Some ds.
Proof.
  intros Hws Hspace Hds Hdigits.
  assert (Hat : band_index_at (s "# Band-Index" ++ ws ++ ds) = Some ds).
  { unfold band_index_at. cbn [run].
    change (s "# Band-Index" ++ ws ++ ds)
      with ("#"%char :: s " Band-Index" ++ (ws ++ ds)).
    rewrite literal_run.
    destruct ws as [|w ws]; [done|]. inversion Hspace as [|? ? Hw Hws']; subst.
    cbn [app]. rewrite Hw.
    destruct ds as [|d ds]; [done|]. inversion Hdigits as [|? ? Hd Hds']; subst.
    apply star_run; [done| |].
    - destruct (digit_plain d Hd) as [Hd' _]. exact Hd'.
    - cbn [run]. rewrite Hd.
      rewrite <- (app_nil_r ds) at 1.
      apply star_run; [done|done|].
      replace (length (d :: ds) - length (@nil ascii))%nat with (length (d :: ds))
        by (simpl; lia).
      by rewrite firstn_all. }
  destruct (s "# Band-Index" ++ ws ++ ds); cbn [search]; by rewrite Hat.
Qed.

Lemma startswith_app p x : startswith p (p ++ x) = true.
Proof.
  induction p as [|c p IH]; [done|]. cbn [app startswith].
  by rewrite Ascii.eqb_refl, IH.
Qed.

Lemma step_title st st0 b :
  well_formed b -> flush st = Ok st0 ->
  step st (title b)
  = Ok {| bands := bands st0; current_band := Some (number b);
          data_lines := data_lines st0 |}.
Proof.
  intros ((ws & ds & Htitle & Hws & Hspace & Hds & Hdigits & Hlen & Hnumber) & _) Hflush.
  unfold step. rewrite Htitle.
  change (s "# Band-Index" ++ ws ++ ds)
    with ("#"%char :: s " Band-Index" ++ (ws ++ ds)) at 1.
  cbv iota. rewrite startswith_app, Hflush. cbn [mbind res_bind].
  rewrite (title_index ws ds Hws Hspace Hds Hdigits).
  destruct ds as [|d ds]; [done|].
  rewrite (int_of_digits d ds Hdigits Hlen). cbn [mbind res_bind].
  by rewrite Hnumber.
Qed.

Lemma step_row st line :
  digit_row line ->
  step st line
  = Ok {| bands := bands st; current_band := current_band st;
          data_lines := data_lines st ++ [strip line] |}.
Proof.
  intros (c & rest & Hline & Hc). unfold step. rewrite Hline.
  assert (Hhash : Ascii.eqb "#" c = false).
  { destruct (Ascii.eqb_spec "#"%char c) as [<-|]; [discriminate Hc|done]. }
  cbn [startswith s list_ascii_of_string]. rewrite Hhash. cbn [andb orb].
  unfold isdigit_char. by rewrite Hc.
Qed.

Lemma steps_rows row_lines0 : forall st rest,
  Forall digit_row row_lines0 ->
  steps st (row_lines0 ++ rest)
  = steps {| bands := bands st; current_band := current_band st;
             data_lines := data_lines st ++ map strip row_lines0 |} rest.
Proof.
  induction row_lines0 as [|line lines IH]; intros st rest Hrows.
  - cbn [app map]. rewrite app_nil_r. by destruct st.
  - inversion Hrows as [|? ? Hline Hlines]; subst. cbn [app steps map].
    rewrite (step_row st line Hline). cbn [mbind res_bind].
    rewrite (IH _ rest Hlines). cbn [bands current_band data_lines].
    by rewrite <- app_assoc.
Qed.

Definition entry (b : block) : Z * ndarray2 := (number b, array b).

Lemma steps_blocks blocks : forall st st0,
  Forall well_formed blocks ->
  flush st = Ok st0 -> data_lines st0 = [] ->
  (st' ← steps st (concat (map block_lines blocks)); st'' ← flush st'; mret (bands st''))
  = Ok (fold_left store (map entry blocks) (bands st0)).
Proof.
  induction blocks as [|b blocks IH]; intros st st0 Hblocks Hflush Hdata.
  - cbn [map concat steps mbind res_bind]. by rewrite Hflush.
  - inversion Hblocks as [|? ? Hb Hblocks']; subst.
    cbn [map concat block_lines]. unfold block_lines at 1. cbn [app steps].
    rewrite (step_title st st0 b Hb Hflush). cbn [mbind res_bind].
    destruct Hb as (_ & Hne & Hrows & Hparse & Harray).
    rewrite (steps_rows _ _ _ Hrows). cbn [bands current_band data_lines].
    rewrite Hdata. cbn [app].
    rewrite (IH _ {| bands := <[number b := array b]> (bands st0);
                     current_band := Some (number b); data_lines := [] |});
      [reflexivity|done| |done].
    unfold flush. cbn [bands current_band data_lines].
    destruct (map strip (row_lines b)) as [|l ls] eqn:Hlines.
    { by destruct (row_lines b). }
    rewrite Hparse. cbn [mbind res_bind]. rewrite Harray. reflexivity.
Qed.

Lemma fold_store_list_to_map {A} (pairs : list (Z * A)) :
  NoDup pairs.*1 -> fold_left store pairs ∅ = list_to_map pairs.
Proof.
  intros Hnd. apply map_eq. intros k.
  rewrite fold_store_lookup, lookup_empty by done.
  by destruct (list_to_map pairs !! k).
Qed.

End OrbitBandFacts.

Section MoreOfOrbitBand.
Import PyFacts SeqFacts FloatParseFacts TextFacts KpointsMore OrbitBandFacts.
Local Open Scope float_scope.

(** X21.  Every table that [parse_band_data] returns can be read by
    columns: its rows have one length, and it has one row and one column at
    least. *)
Theorem parse_band_data_gives_tables
    (text : str) (bands : gmap Z ndarray2) (band : Z) (t : ndarray2) :
  OrbitBand.parse_band_data text = Ok bands ->
  bands !! band = Some t ->
  well_shaped t /\ rows t <> [] /\ (1 <= ncols t)%nat.
Proof.
  unfold OrbitBand.parse_band_data. intros Hrun Hband.
  destruct (OrbitBand.steps _ (readlines text)) as [st|] eqn:Hsteps; [|done].
  cbn [mbind res_bind] in Hrun.
  destruct (OrbitBand.flush st) as [st'|] eqn:Hflush; [|done].
  cbn [mbind res_bind] in Hrun. injection Hrun as <-.
  assert (Hinv : inv st').
  { eapply flush_inv; [|exact Hflush]. eapply steps_inv; [|exact Hsteps].
    split; [apply map_Forall_empty|constructor]. }
  destruct Hinv as [Hbands _]. exact (Hbands band t Hband).
Qed.

Definition nl : str := [ascii_of_N 10].

(** Two bands of two rows and of one row. *)
Definition band_file : str :=
  s "# Band-Index    1" ++ nl
  ++ s "   0.000  -19.5  0.5" ++ nl
  ++ s "   0.100  -19.4  0.5" ++ nl
  ++ s "# Band-Index    2" ++ nl
  ++ s "   0.000  -3.0  1.0" ++ nl.

Definition first_band : ndarray2 :=
  {| ncols := 3; rows := [[0.000; -19.5; 0.5]; [0.100; -19.4; 0.5]] |}.

Definition second_band : ndarray2 :=
  {| ncols := 3; rows := [[0.000; -3.0; 1.0]] |}.

Lemma parse_band_data_tables_witness :
  well_shaped first_band /\ rows first_band <> [] /\ (1 <= ncols first_band)%nat.
Proof.
  apply (parse_band_data_gives_tables band_file
           (<[2%Z := second_band]> (<[1%Z := first_band]> ∅)) 1 first_band).
  - vm_compute. reflexivity.
  - reflexivity.
Defined.

(** X22.  [parse_band_data] passes over every line whose first character,
    white space apart, is no digit, the titles of the bands apart: a row
    that starts with a sign or with a point is lost.  The lines passed over
    can be removed from the file without a change to what is read. *)
Theorem parse_band_data_passes_over (text text' : str) :
  readlines text' = filter (fun line => ignored line = false) (readlines text) ->
  OrbitBand.parse_band_data text' = OrbitBand.parse_band_data text.
Proof.
  intros Hlines. unfold OrbitBand.parse_band_data.
  by rewrite Hlines, <- steps_ignored.
Qed.

(** The two bands with the line of the column names, a blank line and a row
    that starts with a sign. *)
Definition band_file_with_notes : str :=
  s "#K-Path   Energy   s" ++ nl
  ++ s "# Band-Index    1" ++ nl
  ++ s "   0.000  -19.5  0.5" ++ nl
  ++ s "  -0.050  -19.6  0.5" ++ nl
  ++ s "   0.100  -19.4  0.5" ++ nl
  ++ nl
  ++ s "# Band-Index    2" ++ nl
  ++ s "   0.000  -3.0  1.0" ++ nl.

Lemma parse_band_data_passes_witness :
  OrbitBand.parse_band_data band_file = OrbitBand.parse_band_data band_file_with_notes.
Proof.
  apply parse_band_data_passes_over. vm_compute. reflexivity.
Defined.

(** X23.  A file of bands, each one a title with the marker and its number
    and then rows of numbers that start with a digit, as many in every row,
    is read back: [parse_band_data] returns the table of every band under
    its number, when the numbers differ. *)
Theorem parse_band_data_reads_blocks (text : str) (blocks : list block) :
  readlines text = concat (map block_lines blocks) ->
  Forall well_formed blocks ->
  NoDup (map number blocks) ->
  OrbitBand.parse_band_data text
  = Ok (list_to_map (map (fun b => (number b, array b)) blocks)).
Proof.
  intros Hlines Hblocks Hnd. unfold OrbitBand.parse_band_data. rewrite Hlines.
  set (st := {| OrbitBand.bands := ∅; OrbitBand.current_band := None;
                OrbitBand.data_lines := [] |}).
  rewrite (steps_blocks blocks st st Hblocks eq_refl eq_refl). cbn [OrbitBand.bands st].
  f_equal. apply fold_store_list_to_map.
  change (NoDup ((entry <$> blocks).*1)). rewrite <- list_fmap_compose. exact Hnd.
Qed.

Definition two_blocks : list block :=
  [ {| title := s "# Band-Index    1" ++ nl;
       row_lines := [s "   0.000  -19.5  0.5" ++ nl; s "   0.100  -19.4  0.5" ++ nl];
       number := 1; array := first_band |};
    {| title := s "# Band-Index    2" ++ nl;
       row_lines := [s "   0.000  -3.0  1.0" ++ nl];
       number := 2; array := second_band |} ].

Lemma parse_band_data_blocks_witness :
  OrbitBand.parse_band_data band_file
  = Ok (list_to_map [(1%Z, first_band); (2%Z, second_band)]).
Proof.
  apply (parse_band_data_reads_blocks band_file two_blocks).
  - reflexivity.
  - constructor; [|constructor; [|constructor]].
    + split; [|split; [|split; [|split]]].
      * exists (s "    "), (s "1"). split; [reflexivity|]. split; [done|].
        split; [by repeat constructor|]. split; [done|].
        split; [by repeat constructor|]. split; [|reflexivity].
        unfold max_str_digits. simpl. lia.
      * done.
      * constructor; [|constructor; [|constructor]]; by eexists _, _.
      * vm_compute. reflexivity.
      * reflexivity.
    + split; [|split; [|split; [|split]]].
      * exists (s "    "), (s "2"). split; [reflexivity|]. split; [done|].
        split; [by repeat constructor|]. split; [done|].
        split; [by repeat constructor|]. split; [|reflexivity].
        unfold max_str_digits. simpl. lia.
      * done.
      * constructor; [|constructor]; by eexists _, _.
      * vm_compute. reflexivity.
      * reflexivity.
  - apply (bool_decide_unpack _). vm_compute. reflexivity.
Defined.

End MoreOfOrbitBand.

(** ** The tables and the Fermi energy of DOS/DOS.py *)

Module DosMore.
Import Dos PyFacts SeqFacts ReFacts FloatParseFacts OrbitBandFacts.
Local Open Scope float_scope.

(** A character with which no number starts: no digit and no point. *)
Definition dull (c : ascii) : Prop := isdigit c = false /\ Ascii.eqb c "." = false.

Definition dot : ascii -> bool := one_of (s ".").

(** [\d*\.\d+], what follows the sign. *)
Definition fraction : regex :=
  Seq (Star isdigit) (Seq (Cls dot) (Plus isdigit)).

Lemma dot_spec c : dot c = Ascii.eqb c ".".
Proof. unfold dot, one_of. simpl. by rewrite orb_false_r. Qed.

Lemma sign_spec c : one_of (s "-+") c = Ascii.eqb c "-" || Ascii.eqb c "+".
Proof. unfold one_of. simpl. by rewrite orb_false_r. Qed.

(** The expression unfolded once, and a class at a character. *)
Lemma numeric_run x :
  run numeric x Some
  = match
      match run (Cls (one_of (s "-+"))) x (fun x' => run fraction x' Some) with
      | Some a => Some a
      | None => run fraction x Some
      end
    with
    | Some a => Some a
    | None => run (Plus isdigit) x Some
    end.
Proof. reflexivity. Qed.

Lemma run_cls {A} p c x (k : str -> option A) :
  run (Cls p) (c :: x) k = if p c then k x else None.
Proof. reflexivity. Qed.

Lemma run_plus {A} p c x (k : str -> option A) :
  run (Plus p) (c :: x) k = if p c then star p x k else None.
Proof. reflexivity. Qed.

(** Digits that no point follows are no fraction. *)
Lemma fraction_digits_fail {A} ds c rest (k : str -> option A) :
  digits ds -> Ascii.eqb c "." = false -> isdigit c = false ->
  run fraction (ds ++ c :: rest) k = None.
Proof.
  intros Hds Hdot Hc. cbn [fraction run].
  induction Hds as [|d ds Hd _ IH]; cbn [app star].
  - by rewrite Hc, dot_spec, Hdot.
  - rewrite Hd, IH, dot_spec.
    destruct (digit_plain d Hd) as (_ & _ & _ & _ & Hd' & _). by rewrite Hd'.
Qed.

Lemma fraction_dull_fail {A} x (k : str -> option A) :
  match x with c :: _ => dull c | [] => True end ->
  run fraction x k = None.
Proof.
  cbn [fraction run]. destruct x as [|c x]; [done|].
  intros [Hc Hdot]. cbn [star]. by rewrite Hc, dot_spec, Hdot.
Qed.

(** Nothing matches at a character with which no number starts, when no
    number starts after it either. *)
Lemma match_at_dull c x :
  dull c -> match x with d :: _ => dull d | [] => True end ->
  match_at numeric (c :: x) = None.
Proof.
  intros [Hc Hdot] Hx. unfold match_at.
  rewrite numeric_run, run_cls, run_plus.
  rewrite (fraction_dull_fail x Some Hx).
  rewrite (fraction_dull_fail (c :: x) Some (conj Hc Hdot)).
  rewrite Hc. by destruct (one_of (s "-+") c).
Qed.

(** Nothing matches at a sign before digits that no point follows. *)
Lemma match_at_sign_digits ds c rest :
  digits ds -> dull c -> match_at numeric ("-"%char :: ds ++ c :: rest) = None.
Proof.
  intros Hds [Hc Hdot]. unfold match_at.
  rewrite numeric_run, run_cls, run_plus.
  rewrite (fraction_digits_fail ds c rest Some Hds Hdot Hc).
  by rewrite (fraction_dull_fail ("-"%char :: ds ++ c :: rest) Some).
Qed.

(** The digits match, without the sign before them. *)
Lemma match_at_digits d ds c rest :
  digits (d :: ds) -> dull c ->
  match_at numeric ((d :: ds) ++ c :: rest) = Some (d :: ds).
Proof.
  intros Hds [Hc Hdot]. unfold match_at.
  rewrite numeric_run.
  rewrite (fraction_digits_fail (d :: ds) c rest Some Hds Hdot Hc).
  inversion Hds as [|? ? Hd Hds']; subst.
  destruct (digit_plain d Hd) as (_ & _ & Hminus & Hplus & _).
  cbn [app]. rewrite run_cls, run_plus, sign_spec, Hminus, Hplus, Hd. cbn [orb].
  rewrite (star_run isdigit ds (c :: rest) Some (c :: rest) Hds' Hc eq_refl).
  f_equal. cbn [length]. rewrite length_app. cbn [length].
  replace (S (length ds + S (length rest)) - S (length rest))%nat
    with (length (d :: ds)) by (simpl; lia).
  change (d :: ds ++ c :: rest) with ((d :: ds) ++ c :: rest).
  by rewrite take_app_length.
Qed.

Lemma findall_go_miss r c x :
  match_at r (c :: x) = None -> findall_go r 0 (c :: x) = findall_go r 0 x.
Proof. intros H. cbn [findall_go]. by rewrite H. Qed.

Lemma findall_go_hit r x m :
  match_at r x = Some m -> exists more, findall_go r 0 x = m :: more.
Proof. intros H. destruct x; cbn [findall_go]; rewrite H; by eexists. Qed.

Lemma findall_sign_digits pre d ds c rest :
  Forall dull pre -> digits (d :: ds) -> dull c ->
  exists more,
    findall numeric (pre ++ "-"%char :: (d :: ds) ++ c :: rest) = (d :: ds) :: more.
Proof.
  intros Hpre Hds Hc. unfold findall.
  induction Hpre as [|c0 pre Hc0 Hpre IH].
  - rewrite app_nil_l, findall_go_miss by (by apply match_at_sign_digits).
    apply findall_go_hit. by apply match_at_digits.
  - rewrite <- app_comm_cons, findall_go_miss; [exact IH|].
    apply match_at_dull; [done|].
    destruct Hpre as [|c1 pre Hc1 _]; [|done]. by split.
Qed.

(** [float] of digits is their value. *)
Lemma float_of_digits d ds :
  digits (d :: ds) -> exists v, float_of_str (d :: ds) = Ok v.
Proof.
  intros Hds. inversion Hds as [|? ? Hd Hds']; subst.
  destruct (parse_plain_numeral [] (d :: ds)) as [v Hv]; [by left|by constructor|].
  exists v. unfold float_of_str. rewrite app_nil_l in Hv. by rewrite Hv.
Qed.

End DosMore.

Section MoreOfDos.
Import PyFacts SeqFacts ReFacts FloatParseFacts DosMore.
Local Open Scope float_scope.

(** X24.  The first line of [TDOS.dat] or of [PDOS_USER.dat] that is
    neither blank nor a comment is taken for a title and left out of the
    table when it holds a letter, the [E] of an exponent included; the
    lines kept after it are all given to [np.loadtxt]. *)
Theorem dos_first_line_with_letter_is_left_out
    (text : str) (skipped : list str) (first : str) (rest : list str) :
  readlines text = skipped ++ first :: rest ->
  Forall (fun line => DosTables.kept line = false) skipped ->
  DosTables.kept first = true ->
  DosTables.data_lines text
  = if existsb isalpha first
    then filter (fun line => DosTables.kept line = true) rest
    else first :: filter (fun line => DosTables.kept line = true) rest.
Proof.
  intros Hlines Hskipped Hfirst. unfold DosTables.data_lines. rewrite Hlines.
  clear Hlines.
  assert (Hnone : filter (fun line => DosTables.kept line = true) skipped = []).
  { induction Hskipped as [|line skipped Hline _ IH]; [done|].
    rewrite filter_cons, decide_False by congruence. exact IH. }
  rewrite filter_app, Hnone, filter_cons, decide_True by done. reflexivity.
Qed.

Lemma dos_first_line_witness :
  DosTables.data_lines
    (s "# energy  dos" ++ [ascii_of_N 10]
     ++ s "-0.2000E+02  0.0000E+00" ++ [ascii_of_N 10]
     ++ s "-0.1990E+02  0.1000E-01" ++ [ascii_of_N 10])
  = [s "-0.1990E+02  0.1000E-01" ++ [ascii_of_N 10]].
Proof.
  apply (dos_first_line_with_letter_is_left_out _
           [s "# energy  dos" ++ [ascii_of_N 10]]
           (s "-0.2000E+02  0.0000E+00" ++ [ascii_of_N 10])
           [s "-0.1990E+02  0.1000E-01" ++ [ascii_of_N 10]]).
  - reflexivity.
  - by repeat constructor.
  - reflexivity.
Defined.

(** X25.  [extract_fermi_energy] loses the sign of a whole number: when the
    text is no number by itself and its first digits stand after a minus
    sign, with no point after them, the value returned is that of the
    digits alone, the regular expression taking a sign before a fraction
    only. *)
Theorem fermi_energy_of_whole_number_loses_sign
    (text pre ds rest : str) (c : ascii) :
  strip text = pre ++ "-"%char :: ds ++ c :: rest ->
  Forall dull pre -> ds <> [] -> digits ds -> dull c ->
  float_of_str (strip text) = Raise ValueError ->
  exists v,
    float_of_str ds = Ok v
    /\ Dos.extract_fermi_energy (Some text) = ([], Ok v).
Proof.
  intros Htext Hpre Hne Hds Hc Hfloat.
  destruct ds as [|d ds]; [done|].
  destruct (float_of_digits d ds Hds) as [v Hv]. exists v. split; [done|].
  destruct (findall_sign_digits pre d ds c rest Hpre Hds Hc) as [more Hall].
  unfold Dos.extract_fermi_energy. cbv zeta.
  rewrite Hfloat, Htext, Hall.
  change (index ((d :: ds) :: more) 0) with (Ok (d :: ds)).
  cbn [mbind res_bind]. rewrite Hv. reflexivity.
Qed.

Lemma fermi_energy_sign_witness :
  exists v,
    float_of_str (s "5") = Ok v
    /\ Dos.extract_fermi_energy (Some (s "E-fermi : -5 eV" ++ [ascii_of_N 10]))
       = ([], Ok v).
Proof.
  apply (fermi_energy_of_whole_number_loses_sign _ (s "E-fermi : ") (s "5") (s "eV") " "%char).
  - reflexivity.
  - by repeat constructor.
  - done.
  - by repeat constructor.
  - by split.
  - reflexivity.
Defined.

End MoreOfDos.
